(** * Zones: containment, zone entities, storage validation and setup

    A shallow embedding of [homeassistant/components/zone/__init__.py]
    and proofs of the properties its specification states.

    Conventions of the embedding:
    - A Python [float] (and the few [int] literals mixed with them) is
      the rational [Q] it stands for; [<] is [Qltb] and [==] is
      [Qeq_bool], which are exact on floats; [-] is [sub]: the exact
      difference, rounded to a float.  The rounding is a parameter,
      [round]; [Binary64.round] is the one of the platform.
      Infinities and NaN are outside the model.
    - [dict]s keyed by strings are [gmap string _], [set[str]] is
      [gset string]; validated configuration dicts, whose keys the code
      reads with [d[k]], are records.
    - A Python exception is the [Raise] constructor of [result]; [None]
      is [None]. *)

From Stdlib Require Import QArith Qabs Lqa Ascii String.
From Stdlib Require Floats.SpecFloat.
From stdpp Require Import gmap strings sorting pretty.

Open Scope string_scope.

(** ** Python values and exceptions *)

Module Py.

Inductive exn : Type :=
  | KeyError (key : string)
  | TypeError
  | ValueError
  | AttributeError
  | Invalid (path : string).

Inductive result (A : Type) : Type :=
  | Ok (a : A)
  | Raise (e : exn).
Arguments Ok {A} a.
Arguments Raise {A} e.

Global Instance result_ret : MRet result := @Ok.
Global Instance result_bind : MBind result := λ A B f m,
  match m with
  | Ok a => f a
  | Raise e => Raise e
  end.

Global Instance result_fmap : FMap result := λ A B f m,
  match m with
  | Ok a => Ok (f a)
  | Raise e => Raise e
  end.

(** What a call hands back to its caller: Python's [None] or a [bool]. *)
Inductive retval : Type :=
  | RNone
  | RBool (b : bool).

(** [x < y] on floats. *)
Definition Qltb (x y : Q) : bool :=
  match (x ?= y)%Q with
  | Lt => true
  | _ => false
  end.

(** [x - y] on floats: the exact difference, rounded to a float by
    [round]. *)
Definition sub (round : Q → Q) (x y : Q) : Q := round (x - y)%Q.

(** What the rounding of floats is known to do: it keeps the order, and
    it leaves a number that is a float as it is. *)
Definition monotone (round : Q → Q) : Prop :=
  ∀ x y, (x <= y)%Q → (round x <= round y)%Q.

Definition is_float (round : Q → Q) (x : Q) : Prop := (round x == x)%Q.

(** [x < y] where either side may be [None]: Python raises [TypeError]. *)
Definition lt (x y : option Q) : result bool :=
  match x, y with
  | Some x, Some y => Ok (Qltb x y)
  | _, _ => Raise TypeError
  end.

(** [x == y] where [y] may be [None]: a float never equals [None]. *)
Definition eq (x : Q) (y : option Q) : bool :=
  match y with
  | Some y => Qeq_bool x y
  | None => false
  end.

(** Truth value of [d.get(k)] for a key holding a [bool]. *)
Definition truthy (v : option bool) : bool :=
  match v with
  | Some b => b
  | None => false
  end.

(** [s.partition(sep)] for a one-character separator. *)
Fixpoint partition (sep : ascii) (s : string) : string * string * string :=
  match s with
  | EmptyString => ("", "", "")
  | String c s' =>
      if Ascii.eqb c sep then ("", String sep "", s')
      else let '(h, m, t) := partition sep s' in (String c h, m, t)
  end.

(** [c in s] for a character [c]. *)
Fixpoint contains (c : ascii) (s : string) : bool :=
  match s with
  | EmptyString => false
  | String c' s' => Ascii.eqb c' c || contains c s'
  end.

End Py.
Import Py.

(** ** What the module takes from [homeassistant.const] and [.core] *)

Module Core.

(** Modelled from the spec: the constants of [homeassistant.const] and
    of [.const], which are not part of the sources: the sentinel state
    "unavailable", the domain of the zone handles and the reserved
    identifier of the home zone; the event and service names are tags. *)
Definition STATE_UNAVAILABLE : string := "unavailable".
Definition EVENT_CORE_CONFIG_UPDATE : string := "core_config_updated".
Definition SERVICE_RELOAD : string := "reload".
Definition DOMAIN : string := "zone".
Definition HOME_ZONE : string := "home".

(** The attributes of a zone state.  The code reads latitude and
    longitude with [attributes[k]]; it tests the radius against [None]
    and reads the passive flag with [attributes.get], so those two may
    be missing. *)
Record Attributes : Type := {
  ATTR_LATITUDE : Q;
  ATTR_LONGITUDE : Q;
  ATTR_RADIUS : option Q;
  ATTR_PASSIVE : option bool;
  ATTR_EDITABLE : bool
}.

Record State : Type := {
  entity_id : string;
  state : string;
  attributes : Attributes
}.

(** Modelled from the spec: [split_entity_id] of [homeassistant.core],
    which is not part of the sources: a handle is a domain prefix, a dot
    and the bare identifier; a handle missing either part is invalid. *)
Definition split_entity_id (entity_id : string) : result (string * string) :=
  let '(domain, _, object_id) := partition "."%char entity_id in
  if bool_decide (domain = "") || bool_decide (object_id = "")
  then Raise ValueError
  else Ok (domain, object_id).

(** Modelled from the spec: the state machine [hass.states] is a mapping
    from entity handle to [State]; [async_entity_ids(domain)] lists the
    handles of one domain, in no particular order. *)
Definition in_domain (domain : string) (entity_id : string) : bool :=
  match split_entity_id entity_id with
  | Ok (d, _) => bool_decide (d = domain)
  | Raise _ => false
  end.

Definition async_entity_ids (states : gmap string State) (domain : string)
  : list string :=
  filter (λ entity_id, in_domain domain entity_id = true)
         (map_to_list states).*1.

(** [sorted] on a list of strings. *)
Definition sorted (l : list string) : list string := merge_sort String.le l.

End Core.
Import Core.

(** ** The containment engine: [in_zone] and [async_active_zone] *)

Section Containment.

(** The rounding of the float arithmetic of the platform: IEEE 754
    binary64, to the nearest float. *)
Variable round : Q → Q.

(** [homeassistant.util.location.distance]: metres between two points,
    or [None]. *)
Variable distance : Q → Q → Q → Q → option Q.

(** The two loop variables of [async_active_zone]. *)
Record loop_vars : Type := {
  min_dist : option Q;
  closest : option State
}.

Definition skipped (zone : State) : bool :=
  bool_decide (state zone = STATE_UNAVAILABLE)
  || truthy (ATTR_PASSIVE (attributes zone)).

(** One pass through the body of the [for] loop. *)
Definition loop_body (latitude longitude radius : Q)
    (vars : loop_vars) (zone : State) : result loop_vars :=
  if skipped zone then Ok vars
  else
    match distance latitude longitude
            (ATTR_LATITUDE (attributes zone))
            (ATTR_LONGITUDE (attributes zone)) with
    | None => Ok vars
    | Some zone_dist =>
        within_zone ← lt (Some (sub round zone_dist radius))
                         (ATTR_RADIUS (attributes zone));
        closer_zone ←
          match closest vars with
          | None => Ok true
          | Some _ => lt (Some zone_dist) (min_dist vars)
          end;
        smaller_zone ←
          (if eq zone_dist (min_dist vars)
           then match closest vars with
                | Some c => lt (ATTR_RADIUS (attributes zone))
                               (ATTR_RADIUS (attributes c))
                | None => Raise AttributeError
                end
           else Ok false);
        if within_zone && (closer_zone || smaller_zone)
        then Ok {| min_dist := Some zone_dist; closest := Some zone |}
        else Ok vars
    end.

(** The generator [zones]: the states are fetched one at a time while
    the loop runs. *)
Fixpoint for_zones (states : gmap string State)
    (latitude longitude radius : Q)
    (entity_ids : list string) (vars : loop_vars) : result loop_vars :=
  match entity_ids with
  | [] => Ok vars
  | entity_id :: rest =>
      match states !! entity_id with
      | None => Raise AttributeError
      | Some zone =>
          vars' ← loop_body latitude longitude radius vars zone;
          for_zones states latitude longitude radius rest vars'
      end
  end.

Definition async_active_zone (states : gmap string State)
    (latitude longitude radius : Q) : result (option State) :=
  vars ← for_zones states latitude longitude radius
           (sorted (async_entity_ids states DOMAIN))
           {| min_dist := None; closest := None |};
  Ok (closest vars).

Definition in_zone (zone : State) (latitude longitude radius : Q) : bool :=
  if bool_decide (state zone = STATE_UNAVAILABLE) then false
  else
    let zone_dist :=
      distance latitude longitude
        (ATTR_LATITUDE (attributes zone))
        (ATTR_LONGITUDE (attributes zone)) in
    match zone_dist, ATTR_RADIUS (attributes zone) with
    | Some zone_dist, Some zone_radius =>
        Qltb (sub round zone_dist radius) zone_radius
    | _, _ => false
    end.

End Containment.

(** ** The zone entity: class [Zone] *)

Module Zone.

Definition DEFAULT_PASSIVE : bool := false.
Definition DEFAULT_RADIUS : Q := 100.
Definition ENTITY_ID_HOME : string := "zone." +:+ HOME_ZONE.
Definition ICON_HOME : string := "mdi:home".

(** A validated zone definition: the keys of [self._config]. *)
Record Config : Type := {
  CONF_NAME : string;
  CONF_LATITUDE : Q;
  CONF_LONGITUDE : Q;
  CONF_RADIUS : Q;
  CONF_PASSIVE : bool;
  CONF_ICON : option string;
  CONF_ID : option string
}.

(** [==] on two definitions: the same keys with equal values. *)
Definition config_eqb (a b : Config) : bool :=
  bool_decide (CONF_NAME a = CONF_NAME b)
  && Qeq_bool (CONF_LATITUDE a) (CONF_LATITUDE b)
  && Qeq_bool (CONF_LONGITUDE a) (CONF_LONGITUDE b)
  && Qeq_bool (CONF_RADIUS a) (CONF_RADIUS b)
  && bool_decide (CONF_PASSIVE a = CONF_PASSIVE b)
  && bool_decide (CONF_ICON a = CONF_ICON b)
  && bool_decide (CONF_ID a = CONF_ID b).

(** The instance attributes of a [Zone].  [entity_id] is assigned by
    the entity platform after construction; [subscribed] stands for the
    live subscription that [async_added_to_hass] creates. *)
Record Zone : Type := {
  entity_id : option string;
  _config : Config;
  editable : bool;
  _attrs : option Attributes;
  _persons_in_zone : gset string;
  subscribed : bool
}.

(** An occupant-location-change event: [evt.data]. *)
Record Event : Type := {
  data_entity_id : string;
  data_old_state : option State;
  data_new_state : option State
}.

(** What a republication hands to the state machine. *)
Record Written : Type := {
  written_entity_id : option string;
  written_state : nat;
  written_attributes : option Attributes
}.

Definition state (self : Zone) : nat := size (_persons_in_zone self).

Definition name (self : Zone) : string := CONF_NAME (_config self).

Definition unique_id (self : Zone) : option string := CONF_ID (_config self).

Definition icon (self : Zone) : option string := CONF_ICON (_config self).

Definition extra_state_attributes (self : Zone) : option Attributes :=
  _attrs self.

(** Modelled from the spec: [Entity.async_write_ha_state], which is not
    part of the sources, republishes the entity: its handle, its state
    and its attributes as they are at the time of the call. *)
Definition async_write_ha_state (self : Zone) : Written :=
  {| written_entity_id := entity_id self;
     written_state := state self;
     written_attributes := extra_state_attributes self |}.

Definition _generate_attrs (self : Zone) : Zone :=
  {| entity_id := entity_id self;
     _config := _config self;
     editable := editable self;
     _attrs := Some
       {| ATTR_LATITUDE := CONF_LATITUDE (_config self);
          ATTR_LONGITUDE := CONF_LONGITUDE (_config self);
          ATTR_RADIUS := Some (CONF_RADIUS (_config self));
          ATTR_PASSIVE := Some (CONF_PASSIVE (_config self));
          ATTR_EDITABLE := editable self |};
     _persons_in_zone := _persons_in_zone self;
     subscribed := subscribed self |}.

Definition set_editable (b : bool) (self : Zone) : Zone :=
  {| entity_id := entity_id self;
     _config := _config self;
     editable := b;
     _attrs := _attrs self;
     _persons_in_zone := _persons_in_zone self;
     subscribed := subscribed self |}.

Definition set_config (config : Config) (self : Zone) : Zone :=
  {| entity_id := entity_id self;
     _config := config;
     editable := editable self;
     _attrs := _attrs self;
     _persons_in_zone := _persons_in_zone self;
     subscribed := subscribed self |}.

Definition set_persons (persons : gset string) (self : Zone) : Zone :=
  {| entity_id := entity_id self;
     _config := _config self;
     editable := editable self;
     _attrs := _attrs self;
     _persons_in_zone := persons;
     subscribed := subscribed self |}.

Definition set_entity_id (entity_id' : string) (self : Zone) : Zone :=
  {| entity_id := Some entity_id';
     _config := _config self;
     editable := editable self;
     _attrs := _attrs self;
     _persons_in_zone := _persons_in_zone self;
     subscribed := subscribed self |}.

Definition set_subscribed (b : bool) (self : Zone) : Zone :=
  {| entity_id := entity_id self;
     _config := _config self;
     editable := editable self;
     _attrs := _attrs self;
     _persons_in_zone := _persons_in_zone self;
     subscribed := b |}.

Definition __init__ (config : Config) : Zone :=
  let self :=
    {| entity_id := None;
       _config := config;
       editable := true;
       _attrs := None;
       _persons_in_zone := ∅;
       subscribed := false |} in
  let self := _generate_attrs self in
  set_persons ∅ self.

Definition from_yaml (config : Config) : Zone :=
  let zone := __init__ config in
  let zone := set_editable false zone in
  _generate_attrs zone.

(** [async_update_config]: what the call returns, the entity afterwards
    and the republications it made. *)
Definition async_update_config (self : Zone) (config : Config)
  : retval * Zone * list Written :=
  if config_eqb (_config self) config then (RNone, self, [])
  else
    let self := set_config config self in
    let self := _generate_attrs self in
    (RNone, self, [async_write_ha_state self]).

(** [split_entity_id(self.entity_id)[1]]. *)
Definition object_id_of (self : Zone) : result string :=
  match entity_id self with
  | None => Raise AttributeError
  | Some entity_id =>
      '(_, object_id) ← split_entity_id entity_id; Ok object_id
  end.

(** [state and state.state == object_id] for an optional [State]. *)
Definition state_is (st : option State) (object_id : string) : bool :=
  match st with
  | Some st => bool_decide (Core.state st = object_id)
  | None => false
  end.

Definition _person_state_change_listener (self : Zone) (evt : Event)
  : result (Zone * list Written) :=
  object_id ← object_id_of self;
  let person_entity_id := data_entity_id evt in
  let cur_count := size (_persons_in_zone self) in
  let self :=
    if state_is (data_new_state evt) object_id
    then set_persons ({[person_entity_id]} ∪ _persons_in_zone self) self
    else if bool_decide (person_entity_id ∈ _persons_in_zone self)
    then set_persons (_persons_in_zone self ∖ {[person_entity_id]}) self
    else self in
  if bool_decide (size (_persons_in_zone self) ≠ cur_count)
  then Ok (self, [async_write_ha_state self])
  else Ok (self, []).

Definition async_added_to_hass (self : Zone) (states : gmap string State)
  : result Zone :=
  let person_domain := "person" in
  let persons := async_entity_ids states person_domain in
  object_id ← object_id_of self;
  let self :=
    foldl (λ self person,
             if state_is (states !! person) object_id
             then set_persons ({[person]} ∪ _persons_in_zone self) self
             else self)
          self persons in
  Ok (set_subscribed true self).

(** The operations that act on a zone entity during its life. *)
Inductive op : Type :=
  | OpAssignEntityId (entity_id : string)
  | OpAddedToHass (states : gmap string State)
  | OpUpdateConfig (config : Config)
  | OpPersonStateChange (evt : Event).

Definition apply_op (self : Zone) (o : op) : result (Zone * list Written) :=
  match o with
  | OpAssignEntityId entity_id => Ok (set_entity_id entity_id self, [])
  | OpAddedToHass states =>
      self ← async_added_to_hass self states; Ok (self, [])
  | OpUpdateConfig config =>
      let '(_, self, written) := async_update_config self config in
      Ok (self, written)
  | OpPersonStateChange evt => _person_state_change_listener self evt
  end.

(** A life of the entity: an operation that raises leaves the entity
    as it was, and the next one finds it so. *)
Fixpoint run (self : Zone) (ops : list op) : Zone * list Written :=
  match ops with
  | [] => (self, [])
  | o :: ops =>
      match apply_op self o with
      | Ok (self', written) =>
          let '(self'', written') := run self' ops in
          (self'', (written ++ written')%list)
      | Raise _ => run self ops
      end
  end.

(** The attributes snapshot as a function of a definition and of the
    editable flag. *)
Definition snapshot (config : Config) (editable : bool) : Attributes :=
  {| ATTR_LATITUDE := CONF_LATITUDE config;
     ATTR_LONGITUDE := CONF_LONGITUDE config;
     ATTR_RADIUS := Some (CONF_RADIUS config);
     ATTR_PASSIVE := Some (CONF_PASSIVE config);
     ATTR_EDITABLE := editable |}.

(** The event reports the occupant in the zone of this bare identifier. *)
Definition reports (evt : Event) (object_id : string) : Prop :=
  ∃ st, data_new_state evt = Some st ∧ Core.state st = object_id.

End Zone.

(** ** Validation of stored zones: [ZoneStorageCollection] *)

Module Storage.
Import Zone.

(** The fields of a create or update request, each present or not. *)
Record Fields : Type := {
  name : option string;
  latitude : option Q;
  longitude : option Q;
  radius : option Q;
  passive : option bool;
  icon : option string
}.

(** [vol.Required(key): validator]. *)
Definition Required {A B : Type} (key : string) (v : option A)
    (validator : A → result B) : result B :=
  match v with
  | None => Raise (Invalid key)
  | Some a => validator a
  end.

(** [vol.Optional(key): validator]. *)
Definition Optional {A B : Type} (v : option A)
    (validator : A → result B) : result (option B) :=
  match v with
  | None => Ok None
  | Some a => b ← validator a; Ok (Some b)
  end.

(** [vol.Optional(key, default=d): validator]. *)
Definition Optional_default {A B : Type} (v : option A) (d : A)
    (validator : A → result B) : result B :=
  validator (default d v).

(** [vol.Coerce(float)] on a number. *)
Definition Coerce_float (v : Q) : result Q := Ok v.

(** Modelled from the spec: the validators of
    [homeassistant.helpers.config_validation], which is not part of the
    sources: a name is a string, a latitude and a longitude lie within
    the valid geodetic ranges, passive is a bool.  The requests here are
    typed, so the string and bool validators have nothing to refuse. *)
Definition cv_string (v : string) : result string := Ok v.

Definition cv_latitude (v : Q) : result Q :=
  if Qle_bool (-90) v && Qle_bool v 90 then Ok v
  else Raise (Invalid "latitude").

Definition cv_longitude (v : Q) : result Q :=
  if Qle_bool (-180) v && Qle_bool v 180 then Ok v
  else Raise (Invalid "longitude").

Definition cv_boolean (v : bool) : result bool := Ok v.

(** The valid geodetic ranges. *)
Definition valid_latitude (v : Q) : Prop := (-90 <= v)%Q ∧ (v <= 90)%Q.
Definition valid_longitude (v : Q) : Prop := (-180 <= v)%Q ∧ (v <= 180)%Q.

Section Collection.

(** [cv.icon], of which the specification says only that an icon is a
    string: it is left open which strings it refuses. *)
Variable cv_icon : string → result string.

(** [IDManager.generate_id]: a free identifier derived from a suggestion. *)
Variable generate_id : gmap string Config → string → string.

(** The icon of the request is one the icon validator refuses. *)
Definition icon_refused (data : Fields) : Prop :=
  ∃ i e, icon data = Some i ∧ cv_icon i = Raise e.

(** [vol.Schema(CREATE_FIELDS)]. *)
Definition CREATE_SCHEMA (data : Fields) : result Config :=
  name' ← Required "name" (name data) cv_string;
  latitude' ← Required "latitude" (latitude data) cv_latitude;
  longitude' ← Required "longitude" (longitude data) cv_longitude;
  radius' ← Optional_default (radius data) DEFAULT_RADIUS Coerce_float;
  passive' ← Optional_default (passive data) DEFAULT_PASSIVE cv_boolean;
  icon' ← Optional (icon data) cv_icon;
  Ok {| CONF_NAME := name';
        CONF_LATITUDE := latitude';
        CONF_LONGITUDE := longitude';
        CONF_RADIUS := radius';
        CONF_PASSIVE := passive';
        CONF_ICON := icon';
        CONF_ID := None |}.

(** [vol.Schema(UPDATE_FIELDS)]. *)
Definition UPDATE_SCHEMA (data : Fields) : result Fields :=
  name' ← Optional (name data) cv_string;
  latitude' ← Optional (latitude data) cv_latitude;
  longitude' ← Optional (longitude data) cv_longitude;
  radius' ← Optional (radius data) Coerce_float;
  passive' ← Optional (passive data) cv_boolean;
  icon' ← Optional (icon data) cv_icon;
  Ok {| name := name';
        latitude := latitude';
        longitude := longitude';
        radius := radius';
        passive := passive';
        icon := icon' |}.

Definition _process_create_data (data : Fields) : result Config :=
  CREATE_SCHEMA data.

Definition _get_suggested_id (info : Config) : string := CONF_NAME info.

(** [{**data, **update_data}]. *)
Definition merge (data : Config) (update_data : Fields) : Config :=
  {| CONF_NAME := default (CONF_NAME data) (name update_data);
     CONF_LATITUDE := default (CONF_LATITUDE data) (latitude update_data);
     CONF_LONGITUDE := default (CONF_LONGITUDE data) (longitude update_data);
     CONF_RADIUS := default (CONF_RADIUS data) (radius update_data);
     CONF_PASSIVE := default (CONF_PASSIVE data) (passive update_data);
     CONF_ICON :=
       match icon update_data with
       | Some i => Some i
       | None => CONF_ICON data
       end;
     CONF_ID := CONF_ID data |}.

Definition _update_data (data : Config) (update_data : Fields)
  : result Config :=
  update_data ← UPDATE_SCHEMA update_data;
  Ok (merge data update_data).

Definition with_id (item_id : string) (item : Config) : Config :=
  {| CONF_NAME := CONF_NAME item;
     CONF_LATITUDE := CONF_LATITUDE item;
     CONF_LONGITUDE := CONF_LONGITUDE item;
     CONF_RADIUS := CONF_RADIUS item;
     CONF_PASSIVE := CONF_PASSIVE item;
     CONF_ICON := CONF_ICON item;
     CONF_ID := Some item_id |}.

(** Modelled from the spec: [StorageCollection.async_create_item] and
    [async_update_item], which are not part of the sources: the request
    is validated first, then the store-origin partition (stable
    identifier to fields) is changed; an update of an unknown handle is
    an error.  These are the collection's own records; what its
    listeners make of a change, the live entities, is [entity_added] of
    [Entry], where [hass] is at hand. *)
Definition async_create_item (items : gmap string Config) (data : Fields)
  : result Config * gmap string Config :=
  match _process_create_data data with
  | Raise e => (Raise e, items)
  | Ok item =>
      let item_id := generate_id items (_get_suggested_id item) in
      let item := with_id item_id item in
      (Ok item, <[item_id := item]> items)
  end.

Definition async_update_item (items : gmap string Config)
    (item_id : string) (updates : Fields)
  : result Config * gmap string Config :=
  match items !! item_id with
  | None => (Raise (KeyError item_id), items)
  | Some current =>
      match _update_data current updates with
      | Raise e => (Raise e, items)
      | Ok updated => (Ok updated, <[item_id := updated]> items)
      end
  end.

End Collection.

End Storage.

(** ** Setting the component up: [async_setup] and the reload service *)

Module Setup.
Import Zone.

(** [hass.config], as far as [_home_conf] reads it. *)
Record CoreConfig : Type := {
  location_name : string;
  latitude : Q;
  longitude : Q
}.

(** The callbacks [async_setup] hands out: the closure
    [core_config_updated], which holds on to the home zone, and
    [reload_service_handler]. *)
Inductive Listener : Type :=
  | core_config_updated (home_zone : string).

Inductive Handler : Type :=
  | reload_service_handler_ref.

Inductive DataEntry : Type :=
  | storage_collection.

(** The parts of [hass] and of the entity component the module touches:
    the live entities by handle, the event bus, the service registry,
    the shared data table and the republications made so far. *)
Record Hass : Type := {
  config : CoreConfig;
  states : gmap string State;
  entities : gmap string Zone;
  bus : list (string * Listener);
  services : list (string * string * Handler);
  data : gmap string DataEntry;
  written : list Written
}.

Definition _home_conf (hass : Hass) : Config :=
  {| CONF_NAME := location_name (config hass);
     CONF_LATITUDE := latitude (config hass);
     CONF_LONGITUDE := longitude (config hass);
     CONF_RADIUS := DEFAULT_RADIUS;
     CONF_PASSIVE := false;
     CONF_ICON := Some ICON_HOME;
     CONF_ID := None |}.

Definition get_entity (hass : Hass) (entity_id : string) : option Zone :=
  entities hass !! entity_id.

Definition set_entities (entities' : gmap string Zone) (hass : Hass) : Hass :=
  {| config := config hass;
     states := states hass;
     entities := entities';
     bus := bus hass;
     services := services hass;
     data := data hass;
     written := written hass |}.

Definition add_written (w : list Written) (hass : Hass) : Hass :=
  {| config := config hass;
     states := states hass;
     entities := entities hass;
     bus := bus hass;
     services := services hass;
     data := data hass;
     written := (written hass ++ w)%list |}.

(** [hass.bus.async_listen(event_type, listener)]. *)
Definition async_listen (event_type : string) (listener : Listener)
    (hass : Hass) : Hass :=
  {| config := config hass;
     states := states hass;
     entities := entities hass;
     bus := (bus hass ++ [(event_type, listener)])%list;
     services := services hass;
     data := data hass;
     written := written hass |}.

(** [service.async_register_admin_service(hass, domain, service, handler)]. *)
Definition async_register_admin_service (domain service : string)
    (handler : Handler) (hass : Hass) : Hass :=
  {| config := config hass;
     states := states hass;
     entities := entities hass;
     bus := bus hass;
     services := (services hass ++ [(domain, service, handler)])%list;
     data := data hass;
     written := written hass |}.

(** [hass.data[key] = value]. *)
Definition set_data (key : string) (value : DataEntry) (hass : Hass) : Hass :=
  {| config := config hass;
     states := states hass;
     entities := entities hass;
     bus := bus hass;
     services := services hass;
     data := <[key := value]> (data hass);
     written := written hass |}.

(** A change of the ambient location configuration. *)
Definition set_core_config (config' : CoreConfig) (hass : Hass) : Hass :=
  {| config := config';
     states := states hass;
     entities := entities hass;
     bus := bus hass;
     services := services hass;
     data := data hass;
     written := written hass |}.

(** The body of the closure [core_config_updated]. *)
Definition run_listener (listener : Listener) (hass : Hass) : Hass :=
  match listener with
  | core_config_updated home_zone =>
      match entities hass !! home_zone with
      | None => hass
      | Some zone =>
          let '(_, zone, w) := async_update_config zone (_home_conf hass) in
          add_written w
            (set_entities (<[home_zone := zone]> (entities hass)) hass)
      end
  end.

(** Firing an event runs the listeners registered for its type. *)
Definition async_fire (event_type : string) (hass : Hass) : Hass :=
  foldl (λ hass '(event_type', listener),
           if bool_decide (event_type' = event_type)
           then run_listener listener hass
           else hass)
        hass (bus hass).

Section Setup.

(** The collaborators that are not part of the sources:
    [IDLessCollection.async_load] and [StorageCollection.async_load]
    (each with the entity lifecycle synchronised to it),
    [StorageCollectionWebsocket.async_setup],
    [EntityComponent.async_add_entities] and
    [EntityComponent.async_prepare_reload], which yields [None] when the
    configuration cannot be fetched. *)
Variable yaml_collection_async_load : list Config → Hass → Hass.
Variable storage_collection_async_load : Hass → Hass.
Variable websocket_async_setup : Hass → Hass.
Variable async_add_entities : list Zone → Hass → Hass.
Variable async_prepare_reload : Hass → option (list Config).

(** [reload_service_handler]: how the call ends, and [hass] afterwards. *)
Definition reload_service_handler (hass : Hass) : result retval * Hass :=
  match async_prepare_reload hass with
  | None => (Ok RNone, hass)
  | Some conf => (Ok RNone, yaml_collection_async_load conf hass)
  end.

(** [hass] when [async_setup] reaches the test for the home zone. *)
Definition loaded (hass : Hass) (config : list Config) : Hass :=
  let hass :=
    match config with
    | [] => hass
    | _ :: _ => yaml_collection_async_load config hass
    end in
  let hass := storage_collection_async_load hass in
  let hass := websocket_async_setup hass in
  async_register_admin_service DOMAIN SERVICE_RELOAD
    reload_service_handler_ref hass.

Definition async_setup (hass : Hass) (config : list Config) : bool * Hass :=
  let hass := loaded hass config in
  match get_entity hass "zone.home" with
  | Some _ => (true, hass)
  | None =>
      let home_zone := __init__ (_home_conf hass) in
      let home_zone := set_entity_id ENTITY_ID_HOME home_zone in
      let hass := async_add_entities [home_zone] hass in
      let hass :=
        async_listen EVENT_CORE_CONFIG_UPDATE
          (core_config_updated ENTITY_ID_HOME) hass in
      let hass := set_data DOMAIN storage_collection hass in
      (true, hass)
  end.

End Setup.

End Setup.

(** ** The resolution of the active zone, in the words of the specification *)

Section Resolution.

Variable round : Q → Q.
Variable distance : Q → Q → Q → Q → option Q.

(** The zone entries of the namespace, in ascending order of handle. *)
Definition zone_entries (states : gmap string State) : list (string * State) :=
  omap (λ entity_id, (entity_id,.) <$> states !! entity_id)
       (sorted (async_entity_ids states DOMAIN)).

(** A candidate: passive is false and the state is not unavailable. *)
Definition is_candidate (zone : State) : bool :=
  negb (truthy (ATTR_PASSIVE (attributes zone)))
  && negb (bool_decide (state zone = STATE_UNAVAILABLE)).

Definition candidates (states : gmap string State) : list (string * State) :=
  filter (λ entry, is_candidate entry.2 = true) (zone_entries states).

Definition zone_distance (latitude longitude : Q) (zone : State) : option Q :=
  distance latitude longitude
    (ATTR_LATITUDE (attributes zone)) (ATTR_LONGITUDE (attributes zone)).

(** "Within": [zone_dist - extraRadius < zone.radius], on floats. *)
Definition within (extraRadius : Q) (zone : State) (zone_dist : Q) : bool :=
  match ATTR_RADIUS (attributes zone) with
  | Some zone_radius => Qltb (sub round zone_dist extraRadius) zone_radius
  | None => false
  end.

Definition smaller_radius (zone current : State) : bool :=
  match ATTR_RADIUS (attributes zone), ATTR_RADIUS (attributes current) with
  | Some zone_radius, Some current_radius => Qltb zone_radius current_radius
  | _, _ => false
  end.

(** The rule that replaces the current best, a zone with its distance. *)
Definition replaces (extraRadius : Q) (best : option (State * Q))
    (zone : State) (zone_dist : Q) : bool :=
  within extraRadius zone zone_dist
  && match best with
     | None => true
     | Some (current, min_dist) =>
         Qltb zone_dist min_dist
         || (Qeq_bool zone_dist min_dist && smaller_radius zone current)
     end.

Definition consider (latitude longitude extraRadius : Q)
    (best : option (State * Q)) (zone : State) : option (State * Q) :=
  match zone_distance latitude longitude zone with
  | None => best
  | Some zone_dist =>
      if replaces extraRadius best zone zone_dist
      then Some (zone, zone_dist)
      else best
  end.

Definition resolveActiveZone (zones : list State)
    (latitude longitude extraRadius : Q) : option State :=
  fst <$> foldl (consider latitude longitude extraRadius) None zones.

(** A candidate qualifies when its distance is defined and it is within. *)
Definition qualifies (latitude longitude extraRadius : Q) (zone : State)
  : Prop :=
  ∃ zone_dist, zone_distance latitude longitude zone = Some zone_dist
               ∧ within extraRadius zone zone_dist = true.

Definition qualifiesb (latitude longitude extraRadius : Q) (zone : State)
  : bool :=
  match zone_distance latitude longitude zone with
  | Some zone_dist => within extraRadius zone zone_dist
  | None => false
  end.

(** Every candidate of the namespace carries a radius. *)
Definition radius_defined (states : gmap string State) : Prop :=
  Forall (λ entry, is_Some (ATTR_RADIUS (attributes entry.2)))
         (candidates states).

(** [zone] at [zone_dist] is nearer than [other] at [other_dist], or as
    near and not larger. *)
Definition not_farther (zone : State) (zone_dist : Q)
    (other : State) (other_dist : Q) : Prop :=
  match ATTR_RADIUS (attributes zone), ATTR_RADIUS (attributes other) with
  | Some zone_radius, Some other_radius =>
      (zone_dist < other_dist)%Q
      ∨ (zone_dist == other_dist)%Q ∧ (zone_radius <= other_radius)%Q
  | _, _ => False
  end.

(** [best] is a best choice among the zones [seen]. *)
Definition is_best (latitude longitude extraRadius : Q) (seen : list State)
    (best : option (State * Q)) : Prop :=
  match best with
  | Some (current, min_dist) =>
      current ∈ seen
      ∧ zone_distance latitude longitude current = Some min_dist
      ∧ within extraRadius current min_dist = true
      ∧ ∀ zone zone_dist,
          zone ∈ seen →
          zone_distance latitude longitude zone = Some zone_dist →
          within extraRadius zone zone_dist = true →
          not_farther current min_dist zone zone_dist
  | None =>
      ∀ zone zone_dist,
        zone ∈ seen →
        zone_distance latitude longitude zone = Some zone_dist →
        within extraRadius zone zone_dist = false
  end.

(** The same zone state with another passive attribute. *)
Definition with_passive (passive : option bool) (zone : State) : State :=
  {| entity_id := entity_id zone;
     state := state zone;
     attributes :=
       {| ATTR_LATITUDE := ATTR_LATITUDE (attributes zone);
          ATTR_LONGITUDE := ATTR_LONGITUDE (attributes zone);
          ATTR_RADIUS := ATTR_RADIUS (attributes zone);
          ATTR_PASSIVE := passive;
          ATTR_EDITABLE := ATTR_EDITABLE (attributes zone) |} |}.

(** Strictly ascending handles. *)
Definition handle_lt (a b : string) : Prop := String.le a b ∧ a ≠ b.


(** The current best was within, so it carries a radius. *)
Definition best_has_radius (best : option (State * Q)) : Prop :=
  ∀ current min_dist, best = Some (current, min_dist) →
                      is_Some (ATTR_RADIUS (attributes current)).

(** The loop variables that hold a current best. *)
Definition vars_of (best : option (State * Q)) : loop_vars :=
  {| min_dist := snd <$> best; closest := fst <$> best |}.

End Resolution.

(** ** The rounding of the platform *)

Module Binary64.
Local Open Scope Q_scope.

Definition prec : Z := 53.
Definition emax : Z := 1024.

(** The number a finite float stands for. *)
Definition to_Q (f : SpecFloat.spec_float) : Q :=
  match f with
  | SpecFloat.S754_finite s m e =>
      inject_Z (if s then Z.neg m else Z.pos m) * 2 ^ e
  | _ => 0
  end.

(** IEEE 754 binary64 rounding, to the nearest float and to the even
    one of two that are as near, as [SpecFloat] defines it.  Floats and
    their differences are fractions over a power of two; another
    fraction is left as it is.  A number too large for a float has no
    number to be rounded to: overflow is outside the model. *)
Definition round (q : Q) : Q :=
  let k := Z.log2 (Z.pos (Qden q)) in
  if (Z.pos (Qden q) =? 2 ^ k)%Z
  then to_Q (SpecFloat.binary_normalize prec emax (Qnum q) (- k) false)
  else q.

End Binary64.

(** ** Fixtures: a distance primitive and collaborators to evaluate with *)

Module Fixtures.
Import Zone Setup.
Local Open Scope Q_scope.

(** The rounding of an arithmetic in which every number is a float. *)
Definition exact (x : Q) : Q := x.

(** A stand-in for the distance primitive: the sum of the differences
    of the coordinates; it is undefined beyond the poles. *)
Definition taxicab (lat1 lon1 lat2 lon2 : Q) : option Q :=
  if Qle_bool (-90) lat1 && Qle_bool lat1 90
  then Some (Qabs (lat1 - lat2) + Qabs (lon1 - lon2))
  else None.

Definition zone_state (entity_id state : string) (latitude longitude : Q)
    (radius : option Q) (passive : bool) : State :=
  {| Core.entity_id := entity_id;
     Core.state := state;
     attributes :=
       {| ATTR_LATITUDE := latitude;
          ATTR_LONGITUDE := longitude;
          ATTR_RADIUS := radius;
          ATTR_PASSIVE := Some passive;
          ATTR_EDITABLE := true |} |}.

Definition office : State :=
  zone_state "zone.office" "0" 40 (-75) (Some 50) false.

Definition home : State :=
  zone_state "zone.home" "0" 40 (-75) (Some 100) false.

Definition depot : State :=
  zone_state "zone.depot" "0" 40 (-75) (Some 50) false.

Definition passive_zone : State :=
  zone_state "zone.quiet" "0" 40 (-75) (Some 100) true.
Definition unmeasured : State :=
  zone_state "zone.void" "0" 40 (-75) None false.
Definition person_state : State :=
  zone_state "person.ann" "office" 0 0 None false.

Definition two_zones : gmap string State :=
  {[ "zone.office" := office; "zone.home" := home;
     "person.ann" := person_state ]}.

Definition twin_zones : gmap string State :=
  {[ "zone.office" := office; "zone.depot" := depot ]}.

Definition office_conf : Config :=
  {| CONF_NAME := "Office";
     CONF_LATITUDE := 40;
     CONF_LONGITUDE := -75;
     CONF_RADIUS := 50;
     CONF_PASSIVE := false;
     CONF_ICON := None;
     CONF_ID := None |}.

Definition wider_conf : Config :=
  {| CONF_NAME := "Office";
     CONF_LATITUDE := 40;
     CONF_LONGITUDE := -75;
     CONF_RADIUS := 80;
     CONF_PASSIVE := false;
     CONF_ICON := None;
     CONF_ID := None |}.

Definition office_zone : Zone :=
  set_entity_id "zone.office" (__init__ office_conf).

Definition arrives : Event :=
  {| data_entity_id := "person.ann";
     data_old_state := None;
     data_new_state := Some person_state |}.

Definition empty_hass : Hass :=
  {| config := {| location_name := "Home"; latitude := 52; longitude := 5 |};
     states := ∅;
     entities := ∅;
     bus := [];
     services := [];
     data := ∅;
     written := [] |}.

(** A source-origin load that makes each definition live under the
    handle ["zone." + name]. *)
Definition load_by_name (confs : list Config) (hass : Hass) : Hass :=
  foldl (λ hass conf,
           set_entities
             (<["zone." +:+ CONF_NAME conf :=
                  set_entity_id ("zone." +:+ CONF_NAME conf) (from_yaml conf)]>
                (entities hass)) hass)
        hass confs.

Definition add_by_handle (zones : list Zone) (hass : Hass) : Hass :=
  foldl (λ hass zone,
           match entity_id zone with
           | Some entity_id =>
               set_entities (<[entity_id := zone]> (entities hass)) hass
           | None => hass
           end)
        hass zones.

(** The namespace after a setup that made the home zone, and the
    ambient location moved north since. *)
Definition moved_hass : Hass :=
  set_core_config
    {| location_name := "Home"; latitude := 53; longitude := 5 |}
    (async_setup load_by_name (λ hass, hass) (λ hass, hass) add_by_handle
       empty_hass []).2.

Definition home_conf : Config :=
  {| CONF_NAME := "home";
     CONF_LATITUDE := 1;
     CONF_LONGITUDE := 2;
     CONF_RADIUS := 30;
     CONF_PASSIVE := false;
     CONF_ICON := None;
     CONF_ID := None |}.

(** An identifier manager that takes the suggestion as it is. *)
Definition suggested (items : gmap string Config) (suggestion : string)
  : string := suggestion.

Definition pit_fields : Storage.Fields :=
  {| Storage.name := Some "Pit";
     Storage.latitude := Some 40;
     Storage.longitude := Some (-75);
     Storage.radius := Some (-5);
     Storage.passive := None;
     Storage.icon := None |}.

Definition pit_conf : Config :=
  {| CONF_NAME := "Pit";
     CONF_LATITUDE := 40;
     CONF_LONGITUDE := -75;
     CONF_RADIUS := -5;
     CONF_PASSIVE := false;
     CONF_ICON := None;
     CONF_ID := None |}.

Definition zero_radius : Storage.Fields :=
  {| Storage.name := None;
     Storage.latitude := None;
     Storage.longitude := None;
     Storage.radius := Some 0;
     Storage.passive := None;
     Storage.icon := None |}.

Definition north_of_the_pole : Storage.Fields :=
  {| Storage.name := Some "Nowhere";
     Storage.latitude := Some 91;
     Storage.longitude := Some 0;
     Storage.radius := None;
     Storage.passive := None;
     Storage.icon := None |}.

(** An icon validator that asks for a prefix and a name. *)
Definition prefixed_icon (v : string) : result string :=
  if contains ":" v then Ok v else Raise (Invalid "icon").

Definition fetch_fails (hass : Hass) : option (list Config) := None.

Definition fetch_home (hass : Hass) : option (list Config) := Some [home_conf].

Definition no_change (hass : Hass) : Hass := hass.

End Fixtures.

(** ** The loop of [async_active_zone] over the states it fetches *)

Section Loop.

Variable round : Q → Q.
Variable distance : Q → Q → Q → Q → option Q.

(** The [for] loop, given the zone states in the order of the
    generator. *)
Fixpoint for_states (latitude longitude radius : Q)
    (zones : list State) (vars : loop_vars) : result loop_vars :=
  match zones with
  | [] => Ok vars
  | zone :: rest =>
      vars' ← loop_body round distance latitude longitude radius vars zone;
      for_states latitude longitude radius rest vars'
  end.

(** A state written under [entity_id] that the loop passes over: it is
    not of the zone domain, or it is passive or unavailable. *)
Definition passed_over (entity_id : string) (st : State) : Prop :=
  in_domain DOMAIN entity_id = false ∨ is_candidate st = false.

(** The distance primitive never yields a negative number. *)
Definition distance_nonnegative : Prop :=
  ∀ lat1 lon1 lat2 lon2 d,
    distance lat1 lon1 lat2 lon2 = Some d → (0 <= d)%Q.

End Loop.

(** ** Stored definitions *)

Module Stored.
Import Zone Storage.

(** A request that carries nothing. *)
Definition no_fields : Fields :=
  {| name := None; latitude := None; longitude := None;
     radius := None; passive := None; icon := None |}.

(** The coordinates of a definition lie in the valid ranges. *)
Definition valid_coordinates (item : Config) : Prop :=
  valid_latitude (CONF_LATITUDE item) ∧ valid_longitude (CONF_LONGITUDE item).

End Stored.

(** ** The configuration schema: [empty_value] and [CONFIG_SCHEMA] *)

Module Schema.
Import Zone Storage.

(** An element of a list in the configuration: a mapping, or some
    other value. *)
Inductive item : Type :=
  | IDict (d : Fields)
  | IOther.

(** What the configuration may hold under the key of the domain:
    nothing, a mapping, a list, or some other value. *)
Inductive value : Type :=
  | VNone
  | VDict (d : Fields)
  | VList (l : list item)
  | VOther.

Definition present {A : Type} (v : option A) : nat :=
  match v with
  | Some _ => 1
  | None => 0
  end.

(** [len(d)] for a mapping with these keys. *)
Definition len (d : Fields) : nat :=
  present (name d) + present (latitude d) + present (longitude d)
  + present (radius d) + present (passive d) + present (icon d).

Definition empty_value (value : value) : result (list Config) :=
  match value with
  | VDict d =>
      if bool_decide (len d = 0) then Ok []
      else Raise (Invalid "Not a default value")
  | _ => Raise (Invalid "Not a default value")
  end.

(** [vol.All(f, g)]: the value goes through [f], then through [g]. *)
Definition All {A B C : Type} (f : A → B) (g : B → result C) (v : A)
  : result C := g (f v).

(** [vol.Any(f, g)]: the first validator that accepts the value gives
    the result.  When both refuse it, the error raised is the one with
    the longer path, the first of the two when neither is longer; the
    error of [empty_value] has the empty path, so that with [empty_value]
    for [g] the error raised is the one of [f]. *)
Definition Any {A B : Type} (f g : A → result B) (v : A) : result B :=
  match f v with
  | Ok b => Ok b
  | Raise e =>
      match g v with
      | Ok b => Ok b
      | Raise _ => Raise e
      end
  end.

Section ConfigSchema.

Variable cv_icon : string → result string.

(** [cv.ensure_list], which is not part of the sources. *)
Variable ensure_list : value → list item.

(** [vol.Schema(CREATE_FIELDS)] on any value: it takes a mapping. *)
Definition Schema_CREATE_FIELDS (v : item) : result Config :=
  match v with
  | IDict d => CREATE_SCHEMA cv_icon d
  | IOther => Raise (Invalid "expected a dictionary")
  end.

(** The list validator [[vol.Schema(CREATE_FIELDS)]]. *)
Fixpoint each (l : list item) : result (list Config) :=
  match l with
  | [] => Ok []
  | v :: l =>
      conf ← Schema_CREATE_FIELDS v;
      confs ← each l;
      Ok (conf :: confs)
  end.

(** [CONFIG_SCHEMA], as far as the key of the domain goes: the value
    under the key, if there is one, gives the list of definitions. *)
Definition CONFIG_SCHEMA (config : option value) : result (list Config) :=
  Any (All ensure_list each) empty_value (default (VList []) config).

End ConfigSchema.

End Schema.

(** ** Setting a config entry up: [async_setup_entry] *)

Module Entry.
Import Zone Storage.

Record ConfigEntry : Type := {
  entry_id : string;
  data : Fields
}.

(** The task [hass.config_entries.async_remove(entry_id)]. *)
Inductive Task : Type :=
  | async_remove (entry_id : string).

(** [hass], the zones the storage collection holds, and the tasks
    handed to [hass.async_create_task]. *)
Record World : Type := {
  hass : Setup.Hass;
  items : gmap string Config;
  tasks : list Task
}.

(** [d.setdefault(key, default)] on one key. *)
Definition setdefault {A : Type} (v : option A) (d : A) : option A :=
  match v with
  | Some a => Some a
  | None => Some d
  end.

Section SetupEntry.

Variable cv_icon : string → result string.
Variable generate_id : gmap string Config → string → string.

(** [EntityComponent.async_add_entities], as in [async_setup]. *)
Variable async_add_entities : list Zone → Setup.Hass → Setup.Hass.

(** Modelled from the spec: a zone that is created in the store becomes
    a live, editable entity.  [async_setup] wires the storage collection
    to the entity component with [collection.sync_entity_lifecycle] and
    the class [Zone]; when the collection has stored an item, the
    component is handed the entity [Zone(item)]. *)
Definition entity_added (item : Config) (hass : Setup.Hass) : Setup.Hass :=
  async_add_entities [__init__ item] hass.

Definition async_setup_entry (world : World) (config_entry : ConfigEntry)
  : result bool * World :=
  match Setup.data (hass world) !! DOMAIN with
  | None => (Raise (KeyError DOMAIN), world)
  | Some storage_collection =>
      let data := data config_entry in
      let data :=
        {| name := name data;
           latitude := latitude data;
           longitude := longitude data;
           radius := radius data;
           passive := setdefault (passive data) DEFAULT_PASSIVE;
           icon := icon data |} in
      let data :=
        {| name := name data;
           latitude := latitude data;
           longitude := longitude data;
           radius := setdefault (radius data) DEFAULT_RADIUS;
           passive := passive data;
           icon := icon data |} in
      match async_create_item cv_icon generate_id (items world) data with
      | (Raise e, items') =>
          (Raise e,
           {| hass := hass world; items := items'; tasks := tasks world |})
      | (Ok item, items') =>
          (Ok true,
           {| hass := entity_added item (hass world);
              items := items';
              tasks := (tasks world
                        ++ [async_remove (entry_id config_entry)])%list |})
      end
  end.

Definition async_unload_entry (world : World) (config_entry : ConfigEntry)
  : bool := true.

End SetupEntry.

End Entry.

(** ** More fixtures *)

Module Examples.
Import Zone Setup Fixtures.
Local Open Scope Q_scope.

Definition far_zone : State :=
  zone_state "zone.far" "0" 10 10 (Some 5) false.

Definition down_zone : State :=
  zone_state "zone.down" "unavailable" 40 (-75) (Some 10) false.

Definition pit_zone : State :=
  zone_state "zone.pit" "0" 40 (-75) (Some (-5)) false.

Definition office_and_far : gmap string State :=
  {[ "zone.office" := office; "zone.far" := far_zone ]}.

Definition leaves : Event :=
  {| data_entity_id := "person.ann";
     data_old_state := Some person_state;
     data_new_state := None |}.

Definition office_fields : Storage.Fields :=
  {| Storage.name := Some "Office";
     Storage.latitude := Some 40;
     Storage.longitude := Some (-75);
     Storage.radius := None;
     Storage.passive := None;
     Storage.icon := None |}.

Definition office_entry : Entry.ConfigEntry :=
  {| Entry.entry_id := "abc"; Entry.data := office_fields |}.



(** The world after a setup that found a zone named home. *)
Definition early_world : Entry.World :=
  {| Entry.hass :=
       (async_setup load_by_name no_change no_change add_by_handle
          empty_hass [home_conf]).2;
     Entry.items := ∅;
     Entry.tasks := [] |}.








(** The floats [13.554], [0.1] and [13.454]: the numbers these
    literals stand for in binary64. *)
Definition float_13_554 : Q := 7630223668672463 # 562949953421312.
Definition float_0_1 : Q := 3602879701896397 # 36028797018963968.
Definition float_13_454 : Q := 1893482168332583 # 140737488355328.

(** A zone of radius [13.454] at distance [13.554] of the origin. *)
Definition edge_zone : State :=
  zone_state "zone.edge" "0" float_13_554 0 (Some float_13_454) false.


(** The state an entity of the office definition publishes. *)
Definition published_office : State :=
  {| Core.entity_id := "zone.office";
     Core.state := "0";
     attributes := snapshot office_conf true |}.

(** The office definition as the create schema hands it on. *)
Definition created_office : Config :=
  {| CONF_NAME := "Office";
     CONF_LATITUDE := 40;
     CONF_LONGITUDE := -75;
     CONF_RADIUS := 100;
     CONF_PASSIVE := false;
     CONF_ICON := None;
     CONF_ID := None |}.

Definition north : CoreConfig :=
  {| location_name := "Home"; latitude := 53; longitude := 5 |}.

(** [cv.ensure_list] as the helper is known: nothing is the empty
    list, a list is itself, anything else is wrapped. *)
Definition wrap (v : Schema.value) : list Schema.item :=
  match v with
  | Schema.VNone => []
  | Schema.VList l => l
  | Schema.VDict d => [Schema.IDict d]
  | Schema.VOther => [Schema.IOther]
  end.

End Examples.

(** * Properties *)

(** ** Comparisons on [Q] *)

Lemma Qltb_lt (x y : Q) : Qltb x y = true ↔ (x < y)%Q.
Proof.
  unfold Qltb. rewrite Qlt_alt.
  destruct (x ?= y)%Q; split; congruence.
Qed.

Lemma Qltb_ge (x y : Q) : Qltb x y = false ↔ (y <= x)%Q.
Proof.
  rewrite <- not_true_iff_false, Qltb_lt. split.
  - apply Qnot_lt_le.
  - apply Qle_not_lt.
Qed.

Lemma Qltb_irrefl (x y : Q) : (x == y)%Q → Qltb x y = false.
Proof. intros H. apply Qltb_ge. rewrite H. apply Qle_refl. Qed.

Lemma Qltb_asym (x y : Q) : Qltb x y = true → Qltb y x = false.
Proof. rewrite Qltb_lt, Qltb_ge. apply Qlt_le_weak. Qed.

(** ** Calls that return *)

Lemma bind_Ok {A B : Type} (m : result A) (f : A → result B) (b : B) :
  m ≫= f = Ok b → ∃ a, m = Ok a ∧ f a = Ok b.
Proof. destruct m as [a|e]; [by exists a|done]. Qed.

(** ** [in_zone] *)

Section InZone.

Variable round : Q → Q.
Variable distance : Q → Q → Q → Q → option Q.

Lemma in_zone_unavailable (zone : State) (latitude longitude radius : Q) :
  state zone = STATE_UNAVAILABLE →
  in_zone round distance zone latitude longitude radius = false.
Proof. intros H. unfold in_zone. by rewrite bool_decide_eq_true_2. Qed.

Lemma in_zone_available (zone : State) (latitude longitude radius : Q) :
  state zone ≠ STATE_UNAVAILABLE →
  in_zone round distance zone latitude longitude radius =
  match zone_distance distance latitude longitude zone,
        ATTR_RADIUS (attributes zone) with
  | Some d, Some zone_radius => Qltb (sub round d radius) zone_radius
  | _, _ => false
  end.
Proof. intros H. unfold in_zone. by rewrite bool_decide_eq_false_2. Qed.


(** A difference that is not below a float is not rounded below it. *)
Lemma sub_not_below (d radius zone_radius : Q) :
  monotone round → is_float round zone_radius →
  (zone_radius <= d - radius)%Q → (zone_radius <= sub round d radius)%Q.
Proof.
  intros Hmono Hfloat Hle. unfold sub, is_float in *.
  rewrite <- Hfloat. by apply Hmono.
Qed.

(** C2: [in_zone] is false for an unavailable zone, for an undefined
    distance and for an undefined radius; otherwise it is the truth
    value of the strict inequality [d - radius < zone radius], with the
    difference as the floats give it.  The rounding keeps the order and
    the radius of the zone is a float: so a point that is inside is
    inside by the exact difference too, and a point at distance exactly
    [zone radius + radius] is not inside. *)
Theorem in_zone_strict (zone : State) (latitude longitude radius : Q) :
  (state zone = STATE_UNAVAILABLE →
   in_zone round distance zone latitude longitude radius = false)
  ∧ (zone_distance distance latitude longitude zone = None →
     in_zone round distance zone latitude longitude radius = false)
  ∧ (ATTR_RADIUS (attributes zone) = None →
     in_zone round distance zone latitude longitude radius = false)
  ∧ (∀ d zone_radius,
       state zone ≠ STATE_UNAVAILABLE →
       zone_distance distance latitude longitude zone = Some d →
       ATTR_RADIUS (attributes zone) = Some zone_radius →
       (in_zone round distance zone latitude longitude radius = true
        ↔ (sub round d radius < zone_radius)%Q)
       ∧ (monotone round → is_float round zone_radius →
          (in_zone round distance zone latitude longitude radius = true →
           (d - radius < zone_radius)%Q)
          ∧ ((d == zone_radius + radius)%Q →
             in_zone round distance zone latitude longitude radius
             = false))).
Proof.
  split; [apply in_zone_unavailable|].
  split; [|split].
  - intros Hd. destruct (decide (state zone = STATE_UNAVAILABLE)) as [Hu|Hu].
    + by apply in_zone_unavailable.
    + rewrite in_zone_available by done. by rewrite Hd.
  - intros Hr. destruct (decide (state zone = STATE_UNAVAILABLE)) as [Hu|Hu].
    + by apply in_zone_unavailable.
    + rewrite in_zone_available by done. rewrite Hr.
      by destruct (zone_distance _ _ _ _).
  - intros d zone_radius Hu Hd Hr.
    rewrite in_zone_available by done. rewrite Hd, Hr. split.
    + apply Qltb_lt.
    + intros Hmono Hfloat. split.
      * intros Hin%Qltb_lt. apply Qnot_le_lt. intros Hle.
        apply (sub_not_below d radius zone_radius Hmono Hfloat) in Hle.
        by apply Qle_not_lt in Hle.
      * intros Heq. apply Qltb_ge. apply sub_not_below; [done|done|].
        rewrite Heq. lra.
Qed.

End InZone.

(** ** The order of iteration *)

Lemma sorted_StronglySorted (l : list string) :
  StronglySorted String.le (sorted l).
Proof. apply (StronglySorted_merge_sort _). Qed.

Lemma sorted_Permutation (l : list string) : sorted l ≡ₚ l.
Proof. apply merge_sort_Permutation. Qed.

Lemma StronglySorted_strict (l : list string) :
  StronglySorted String.le l → NoDup l → StronglySorted handle_lt l.
Proof.
  induction 1 as [|x l Hl IH Hx]; intros Hnd; [constructor|].
  apply NoDup_cons in Hnd as [Hnotin Hnd].
  constructor; [by apply IH|].
  apply Forall_forall. intros y Hy. split.
  - by eapply Forall_forall in Hx.
  - intros ->. done.
Qed.

Lemma StronglySorted_fst_filter {A : Type} (R : relation string)
    (P : string * A → Prop) `{∀ x, Decision (P x)} (l : list (string * A)) :
  StronglySorted R l.*1 → StronglySorted R (filter P l).*1.
Proof.
  induction l as [|x l IH]; intros Hs; [constructor|].
  apply StronglySorted_cons in Hs as [Hx Hs].
  rewrite filter_cons. destruct (decide (P x)); [|by apply IH].
  rewrite fmap_cons. apply StronglySorted_cons. split; [|by apply IH].
  apply Forall_forall. intros y Hy.
  apply list_elem_of_fmap in Hy as (e & -> & He).
  apply list_elem_of_filter in He as [_ He].
  eapply Forall_forall in Hx; [done|]. by apply list_elem_of_fmap_2.
Qed.

Lemma elem_of_async_entity_ids (states : gmap string State)
    (domain entity_id : string) :
  entity_id ∈ async_entity_ids states domain
  ↔ is_Some (states !! entity_id) ∧ in_domain domain entity_id = true.
Proof.
  unfold async_entity_ids. rewrite list_elem_of_filter, list_elem_of_fmap.
  split.
  - intros [Hd ([k z] & -> & Hin)]. split; [|done].
    apply elem_of_map_to_list in Hin. by exists z.
  - intros [[z Hz] Hd]. split; [done|]. exists (entity_id, z).
    split; [done|]. by apply elem_of_map_to_list.
Qed.

Lemma NoDup_async_entity_ids (states : gmap string State) (domain : string) :
  NoDup (async_entity_ids states domain).
Proof. apply NoDup_filter, NoDup_fst_map_to_list. Qed.

Lemma elem_of_sorted_ids (states : gmap string State) (entity_id : string) :
  entity_id ∈ sorted (async_entity_ids states DOMAIN)
  ↔ is_Some (states !! entity_id) ∧ in_domain DOMAIN entity_id = true.
Proof. by rewrite sorted_Permutation, elem_of_async_entity_ids. Qed.

Lemma fst_entries (states : gmap string State) (ids : list string) :
  (∀ entity_id, entity_id ∈ ids → is_Some (states !! entity_id)) →
  (omap (λ entity_id, (entity_id,.) <$> states !! entity_id) ids).*1 = ids.
Proof.
  induction ids as [|entity_id ids IH]; intros Hall; [done|].
  destruct (Hall entity_id) as [z Hz]; [by left|].
  simpl. rewrite Hz. simpl. f_equal. apply IH.
  intros i Hi. apply Hall. by right.
Qed.

Lemma fst_zone_entries (states : gmap string State) :
  (zone_entries states).*1 = sorted (async_entity_ids states DOMAIN).
Proof.
  apply fst_entries. intros entity_id Hin.
  by apply elem_of_sorted_ids in Hin as [? _].
Qed.

Lemma elem_of_zone_entries (states : gmap string State)
    (entity_id : string) (zone : State) :
  (entity_id, zone) ∈ zone_entries states
  ↔ states !! entity_id = Some zone ∧ in_domain DOMAIN entity_id = true.
Proof.
  unfold zone_entries. rewrite list_elem_of_omap. split.
  - intros (i & Hi & Hf). apply elem_of_sorted_ids in Hi as [_ Hd].
    destruct (states !! i) as [z|] eqn:Hz; simplify_eq/=. done.
  - intros [Hz Hd]. exists entity_id. split.
    + apply elem_of_sorted_ids. split; [by exists zone|done].
    + by rewrite Hz.
Qed.

Lemma zone_entries_ascending (states : gmap string State) :
  StronglySorted handle_lt (zone_entries states).*1.
Proof.
  rewrite fst_zone_entries. apply StronglySorted_strict.
  - apply sorted_StronglySorted.
  - rewrite sorted_Permutation. apply NoDup_async_entity_ids.
Qed.

Lemma is_candidate_spec (zone : State) :
  is_candidate zone = true
  ↔ truthy (ATTR_PASSIVE (attributes zone)) = false
    ∧ state zone ≠ STATE_UNAVAILABLE.
Proof.
  unfold is_candidate.
  rewrite andb_true_iff, !negb_true_iff, bool_decide_eq_false. done.
Qed.

Lemma skipped_candidate (zone : State) :
  skipped zone = negb (is_candidate zone).
Proof.
  unfold skipped, is_candidate.
  rewrite negb_andb, !negb_involutive. apply orb_comm.
Qed.

Lemma elem_of_candidates (states : gmap string State)
    (entity_id : string) (zone : State) :
  (entity_id, zone) ∈ candidates states
  ↔ states !! entity_id = Some zone
    ∧ in_domain DOMAIN entity_id = true
    ∧ truthy (ATTR_PASSIVE (attributes zone)) = false
    ∧ state zone ≠ STATE_UNAVAILABLE.
Proof.
  unfold candidates.
  rewrite list_elem_of_filter, elem_of_zone_entries, is_candidate_spec.
  simpl. tauto.
Qed.

Lemma candidates_ascending (states : gmap string State) :
  StronglySorted handle_lt (candidates states).*1.
Proof. apply StronglySorted_fst_filter, zone_entries_ascending. Qed.

(** ** [async_active_zone] against the resolution of the specification *)

Section ActiveZone.

Variable round : Q → Q.
Variable distance : Q → Q → Q → Q → option Q.

Lemma consider_has_radius (latitude longitude radius : Q)
    (best : option (State * Q)) (zone : State) :
  best_has_radius best →
  best_has_radius (consider round distance latitude longitude radius best zone).
Proof.
  intros Hbest. unfold consider.
  destruct (zone_distance _ _ _ _) as [d|]; [|done].
  destruct (replaces round radius best zone d) eqn:Hrep; [|done].
  intros current m [= <- <-].
  unfold replaces, within in Hrep.
  by destruct (ATTR_RADIUS (attributes zone)).
Qed.

Lemma loop_body_consider (latitude longitude radius : Q)
    (best : option (State * Q)) (zone : State) :
  best_has_radius best →
  (is_candidate zone = true → is_Some (ATTR_RADIUS (attributes zone))) →
  loop_body round distance latitude longitude radius (vars_of best) zone =
  Ok (vars_of (if is_candidate zone
               then consider round distance latitude longitude radius best zone
               else best)).
Proof.
  intros Hbest Hradius. unfold loop_body.
  rewrite skipped_candidate.
  destruct (is_candidate zone); simpl; [|done].
  destruct Hradius as [zone_radius Hzr]; [done|].
  unfold consider, zone_distance.
  destruct (distance _ _ _ _) as [zone_dist|]; [|done].
  unfold replaces, within, smaller_radius. rewrite Hzr.
  destruct best as [[current m]|]; simpl.
  - destruct (Hbest current m) as [current_radius Hcr]; [done|].
    rewrite Hcr. simpl.
    destruct (Qeq_bool zone_dist m); simpl;
      destruct (Qltb (sub round zone_dist radius) zone_radius),
               (Qltb zone_dist m); simpl; try done;
      by destruct (Qltb zone_radius current_radius).
  - by destruct (Qltb (sub round zone_dist radius) zone_radius).
Qed.

Lemma for_zones_consider (states : gmap string State)
    (latitude longitude radius : Q) (ids : list string) :
  ∀ best,
    best_has_radius best →
    (∀ entity_id, entity_id ∈ ids → is_Some (states !! entity_id)) →
    (∀ entity_id zone,
       entity_id ∈ ids → states !! entity_id = Some zone →
       is_candidate zone = true → is_Some (ATTR_RADIUS (attributes zone))) →
    for_zones round distance states latitude longitude radius ids
      (vars_of best) =
    Ok (vars_of
          (foldl (consider round distance latitude longitude radius) best
             (filter (λ entry, is_candidate entry.2 = true)
                (omap (λ entity_id, (entity_id,.) <$> states !! entity_id)
                   ids)).*2)).
Proof.
  induction ids as [|entity_id ids IH]; intros best Hbest Hall Hradius; [done|].
  destruct (Hall entity_id) as [zone Hz]; [by left|].
  simpl. rewrite Hz. simpl.
  rewrite loop_body_consider; [|done|by eapply Hradius; [left|]].
  simpl. rewrite filter_cons. simpl.
  destruct (is_candidate zone) eqn:Hc.
  - rewrite decide_True by done. simpl. apply IH.
    + by apply consider_has_radius.
    + intros i Hi. apply Hall. by right.
    + intros i z Hi. apply Hradius. by right.
  - rewrite decide_False by done. apply IH; [done| |].
    + intros i Hi. apply Hall. by right.
    + intros i z Hi. apply Hradius. by right.
Qed.

Lemma consider_None (latitude longitude radius : Q)
    (best : option (State * Q)) (zone : State) :
  consider round distance latitude longitude radius best zone = None
  ↔ best = None ∧ ¬ qualifies round distance latitude longitude radius zone.
Proof.
  unfold consider, qualifies.
  destruct (zone_distance _ _ _ _) as [d|] eqn:Hd.
  - destruct (replaces round radius best zone d) eqn:Hrep.
    + split; [done|]. intros [-> Hq]. destruct Hq. exists d.
      split; [done|]. unfold replaces in Hrep.
      by apply andb_true_iff in Hrep as [? _].
    + split; [|by intros [? _]]. intros ->. split; [done|].
      intros (d' & [= <-] & Hw). unfold replaces in Hrep.
      by rewrite Hw in Hrep.
  - split; [|by intros [? _]]. intros ->. split; [done|].
    by intros (d' & ? & _).
Qed.

Lemma resolve_None (latitude longitude radius : Q) (zones : list State) :
  ∀ best,
    foldl (consider round distance latitude longitude radius) best zones = None
    ↔ best = None
      ∧ ∀ zone, zone ∈ zones →
                ¬ qualifies round distance latitude longitude radius zone.
Proof.
  induction zones as [|zone zones IH]; intros best; simpl.
  - split; [|by intros [? _]]. intros ->. split; [done|].
    intros zone Hin. by apply elem_of_nil in Hin.
  - rewrite IH, consider_None. split.
    + intros [[-> Hq] Hrest]. split; [done|].
      intros z Hz. apply elem_of_cons in Hz as [->|Hz]; [done|by apply Hrest].
    + intros [-> Hall]. split; [split; [done|]|].
      * apply Hall. by left.
      * intros z Hz. apply Hall. by right.
Qed.

Lemma active_zone_run (states : gmap string State)
    (latitude longitude radius : Q) :
  radius_defined states →
  async_active_zone round distance states latitude longitude radius =
  Ok (resolveActiveZone round distance (candidates states).*2
        latitude longitude radius).
Proof.
  intros Hradius. unfold async_active_zone.
  change {| min_dist := None; closest := None |} with (vars_of None).
  rewrite for_zones_consider; [done|done| |].
  - intros entity_id Hin. by apply elem_of_sorted_ids in Hin as [? _].
  - intros entity_id zone Hin Hz Hc.
    unfold radius_defined in Hradius.
    rewrite Forall_forall in Hradius. apply (Hradius (entity_id, zone)).
    apply elem_of_candidates. apply elem_of_sorted_ids in Hin as [_ Hd].
    by apply is_candidate_spec in Hc as [? ?].
Qed.

Lemma loop_body_returns (latitude longitude radius : Q)
    (best : option (State * Q)) (zone : State) (vars' : loop_vars) :
  best_has_radius best →
  loop_body round distance latitude longitude radius (vars_of best) zone
  = Ok vars' →
  vars' = vars_of
            (if is_candidate zone
             then consider round distance latitude longitude radius best zone
             else best).
Proof.
  intros Hbest Hrun.
  destruct (ATTR_RADIUS (attributes zone)) as [zone_radius|] eqn:Hzr.
  - rewrite loop_body_consider in Hrun; [by injection Hrun|done|].
    intros _. by rewrite Hzr.
  - unfold loop_body in Hrun. rewrite skipped_candidate in Hrun.
    unfold consider, zone_distance.
    destruct (is_candidate zone); simpl in Hrun; [|by injection Hrun].
    destruct (distance _ _ _ _) as [zone_dist|]; [|by injection Hrun].
    by rewrite Hzr in Hrun.
Qed.

Lemma for_zones_returns (states : gmap string State)
    (latitude longitude radius : Q) (ids : list string) :
  ∀ best vars',
    best_has_radius best →
    (∀ entity_id, entity_id ∈ ids → is_Some (states !! entity_id)) →
    for_zones round distance states latitude longitude radius ids (vars_of best)
    = Ok vars' →
    vars' =
    vars_of
      (foldl (consider round distance latitude longitude radius) best
         (filter (λ entry, is_candidate entry.2 = true)
            (omap (λ entity_id, (entity_id,.) <$> states !! entity_id)
               ids)).*2).
Proof.
  induction ids as [|entity_id ids IH]; intros best vars' Hbest Hall Hrun.
  - by injection Hrun.
  - destruct (Hall entity_id) as [zone Hz]; [by left|].
    simpl in *. rewrite Hz in *. simpl.
    apply bind_Ok in Hrun as (vars1 & Hbody & Hrun).
    apply loop_body_returns in Hbody as ->; [|done].
    rewrite filter_cons. simpl.
    destruct (is_candidate zone) eqn:Hc.
    + rewrite decide_True by done. simpl.
      apply IH; [by apply consider_has_radius| |done].
      intros i Hi. apply Hall. by right.
    + rewrite decide_False by done. apply IH; [done| |done].
      intros i Hi. apply Hall. by right.
Qed.

Lemma active_zone_returns (states : gmap string State)
    (latitude longitude radius : Q) (result : option State) :
  async_active_zone round distance states latitude longitude radius
  = Ok result →
  result = resolveActiveZone round distance (candidates states).*2
             latitude longitude radius.
Proof.
  unfold async_active_zone. intros Hrun.
  apply bind_Ok in Hrun as (vars & Hfor & Hrun). injection Hrun as <-.
  change {| min_dist := None; closest := None |} with (vars_of None) in Hfor.
  apply for_zones_returns in Hfor as ->; [done|done|].
  intros entity_id Hin. by apply elem_of_sorted_ids in Hin as [? _].
Qed.

(** C1: the candidates are the zone entries that are not passive and
    not unavailable, in ascending order of handle; the loop skips the
    undefined distances and replaces [closest] by the rule of the
    specification, in which "within" is the comparison of the floats,
    the difference rounded; the result is [closest], and it is [None]
    exactly when no candidate qualifies.  Whenever the call returns,
    this is its result, and it returns when the candidates carry a
    radius. *)
Theorem async_active_zone_resolves (states : gmap string State)
    (latitude longitude radius : Q) :
  (∀ entity_id zone,
     (entity_id, zone) ∈ candidates states
     ↔ states !! entity_id = Some zone
       ∧ in_domain DOMAIN entity_id = true
       ∧ truthy (ATTR_PASSIVE (attributes zone)) = false
       ∧ state zone ≠ STATE_UNAVAILABLE)
  ∧ StronglySorted handle_lt (candidates states).*1
  ∧ (∀ result,
       async_active_zone round distance states latitude longitude radius
       = Ok result →
       result = resolveActiveZone round distance (candidates states).*2
                  latitude longitude radius)
  ∧ (radius_defined states →
     async_active_zone round distance states latitude longitude radius =
     Ok (resolveActiveZone round distance (candidates states).*2
           latitude longitude radius))
  ∧ (resolveActiveZone round distance (candidates states).*2
       latitude longitude radius = None
     ↔ ∀ entry, entry ∈ candidates states →
                ¬ qualifies round distance latitude longitude radius entry.2).
Proof.
  split; [apply elem_of_candidates|].
  split; [apply candidates_ascending|].
  split; [apply active_zone_returns|].
  split; [apply active_zone_run|].
  unfold resolveActiveZone. rewrite fmap_None, resolve_None. split.
  - intros [_ Hall] entry Hin. apply Hall. by apply list_elem_of_fmap_2.
  - intros Hall. split; [done|]. intros zone Hin.
    apply list_elem_of_fmap in Hin as (entry & -> & Hin). by apply Hall.
Qed.

(** *** Candidates that qualify *)

Lemma qualifiesb_spec (latitude longitude radius : Q) (zone : State) :
  qualifiesb round distance latitude longitude radius zone = true
  ↔ qualifies round distance latitude longitude radius zone.
Proof.
  unfold qualifiesb, qualifies.
  destruct (zone_distance _ _ _ _) as [d|].
  - split; [by exists d|]. by intros (d' & [= <-] & ?).
  - split; [done|]. by intros (d' & ? & _).
Qed.



Lemma handle_lt_irrefl (a : string) : ¬ handle_lt a a.
Proof. by intros [_ ?]. Qed.

Lemma handle_lt_asym (a b : string) : handle_lt a b → handle_lt b a → a = b.
Proof. intros [Hab _] [Hba _]. by apply (anti_symm String.le). Qed.

Lemma ascending_NoDup (l : list string) :
  StronglySorted handle_lt l → NoDup l.
Proof.
  induction 1 as [|x l Hl IH Hx]; [constructor|].
  constructor; [|done]. intros Hin.
  eapply Forall_forall in Hx; [|done]. by apply handle_lt_irrefl in Hx.
Qed.



(** *** The result is a nearest candidate *)

Lemma consider_best (latitude longitude radius : Q) (seen : list State)
    (best : option (State * Q)) (zone : State) :
  is_best round distance latitude longitude radius seen best →
  is_best round distance latitude longitude radius (seen ++ [zone])
    (consider round distance latitude longitude radius best zone).
Proof.
  intros Hbest. unfold consider.
  destruct (zone_distance distance latitude longitude zone) as [d|] eqn:Hd.
  2:{ destruct best as [[c m]|]; simpl in *.
      - destruct Hbest as (Hin & Hm & Hw & Hmin).
        split; [apply elem_of_app; by left|]. split; [done|]. split; [done|].
        intros z dz Hz Hdz Hwz. apply elem_of_app in Hz as [Hz|Hz]; [eauto|].
        apply list_elem_of_singleton in Hz as ->. congruence.
      - intros z dz Hz Hdz. apply elem_of_app in Hz as [Hz|Hz]; [eauto|].
        apply list_elem_of_singleton in Hz as ->. congruence. }
  unfold replaces. destruct (within round radius zone d) eqn:Hw; simpl.
  2:{ destruct best as [[c m]|]; simpl in *.
      - destruct Hbest as (Hin & Hm & Hwc & Hmin).
        split; [apply elem_of_app; by left|]. split; [done|]. split; [done|].
        intros z dz Hz Hdz Hwz. apply elem_of_app in Hz as [Hz|Hz]; [eauto|].
        apply list_elem_of_singleton in Hz as ->. congruence.
      - intros z dz Hz Hdz. apply elem_of_app in Hz as [Hz|Hz]; [eauto|].
        apply list_elem_of_singleton in Hz as ->. congruence. }
  assert (∃ rz, ATTR_RADIUS (attributes zone) = Some rz) as [rz Hrz].
  { unfold within in Hw. destruct (ATTR_RADIUS (attributes zone)); eauto.
    done. }
  destruct best as [[c m]|]; simpl in *.
  - destruct Hbest as (Hin & Hm & Hwc & Hmin).
    assert (∃ rc, ATTR_RADIUS (attributes c) = Some rc) as [rc Hrc].
    { unfold within in Hwc. destruct (ATTR_RADIUS (attributes c)); eauto.
      done. }
    unfold smaller_radius. rewrite Hrz, Hrc.
    destruct (Qltb d m || Qeq_bool d m && Qltb rz rc) eqn:Hbetter; simpl.
    + assert ((d < m)%Q ∨ (d == m)%Q ∧ (rz < rc)%Q) as Hlex.
      { apply orb_true_iff in Hbetter as [H|H]; [left; by apply Qltb_lt|].
        apply andb_true_iff in H as [H1 H2]. right.
        split; [by apply Qeq_bool_iff|by apply Qltb_lt]. }
      split; [apply elem_of_app; right; by left|]. split; [done|].
      split; [done|].
      intros z dz Hz Hdz Hwz. apply elem_of_app in Hz as [Hz|Hz].
      * specialize (Hmin z dz Hz Hdz Hwz). unfold not_farther in *.
        rewrite Hrz. rewrite Hrc in Hmin.
        destruct (ATTR_RADIUS (attributes z)) as [r|]; [|done].
        destruct Hlex as [?|[? ?]], Hmin as [?|[? ?]];
          (left; lra) || (right; split; lra).
      * apply list_elem_of_singleton in Hz as ->.
        assert (dz = d) as -> by congruence.
        unfold not_farther. rewrite Hrz. right. split; lra.
    + assert ((m < d)%Q ∨ (m == d)%Q ∧ (rc <= rz)%Q) as Hlex.
      { apply orb_false_iff in Hbetter as [H1 H2].
        apply Qltb_ge in H1.
        destruct (Qeq_bool d m) eqn:Heq; simpl in H2.
        - apply Qeq_bool_iff in Heq. apply Qltb_ge in H2.
          right. split; [by symmetry|done].
        - apply Qeq_bool_neq in Heq. left.
          apply Qle_lteq in H1 as [?|?]; [done|]. destruct Heq. by symmetry. }
      split; [apply elem_of_app; by left|]. split; [done|]. split; [done|].
      intros z dz Hz Hdz Hwz. apply elem_of_app in Hz as [Hz|Hz]; [eauto|].
      apply list_elem_of_singleton in Hz as ->.
      assert (dz = d) as -> by congruence.
      unfold not_farther. by rewrite Hrc, Hrz.
  - split; [apply elem_of_app; right; by left|]. split; [done|].
    split; [done|].
    intros z dz Hz Hdz Hwz. apply elem_of_app in Hz as [Hz|Hz].
    + by rewrite (Hbest z dz Hz Hdz) in Hwz.
    + apply list_elem_of_singleton in Hz as ->.
      assert (dz = d) as -> by congruence.
      unfold not_farther. rewrite Hrz. right. split; lra.
Qed.

Lemma resolve_best (latitude longitude radius : Q) (zones : list State) :
  ∀ seen best,
    is_best round distance latitude longitude radius seen best →
    is_best round distance latitude longitude radius (seen ++ zones)
      (foldl (consider round distance latitude longitude radius) best zones).
Proof.
  induction zones as [|zone zones IH]; intros seen best Hbest; simpl.
  - by rewrite app_nil_r.
  - replace (seen ++ zone :: zones)%list with ((seen ++ [zone]) ++ zones)%list
      by (by rewrite <- app_assoc).
    apply IH. by apply consider_best.
Qed.

(** *** Ties *)





(** X1: the zone returned is a candidate that qualifies, and no
    candidate that qualifies is nearer, or as near with a smaller
    radius.  To qualify is to be within by the comparison of the floats,
    the difference rounded. *)
Theorem async_active_zone_nearest (states : gmap string State)
    (latitude longitude radius : Q) (zone : State) :
  async_active_zone round distance states latitude longitude radius
  = Ok (Some zone) →
  ∃ zone_dist,
    zone ∈ (candidates states).*2
    ∧ zone_distance distance latitude longitude zone = Some zone_dist
    ∧ within round radius zone zone_dist = true
    ∧ ∀ other other_dist,
        other ∈ (candidates states).*2 →
        zone_distance distance latitude longitude other = Some other_dist →
        within round radius other other_dist = true →
        not_farther zone zone_dist other other_dist.
Proof.
  intros Hrun. apply active_zone_returns in Hrun.
  symmetry in Hrun. unfold resolveActiveZone in Hrun.
  pose proof (resolve_best latitude longitude radius
                (candidates states).*2 [] None) as Hbest.
  simpl in Hbest.
  destruct (foldl _ None _) as [[c m]|]; [|done].
  simpl in Hrun. injection Hrun as ->. exists m. apply Hbest.
  intros z dz Hz. by apply elem_of_nil in Hz.
Qed.

(** *** Passive zones *)

Lemma loop_body_closest (latitude longitude radius : Q)
    (vars vars' : loop_vars) (zone : State) :
  loop_body round distance latitude longitude radius vars zone = Ok vars' →
  (∀ c, closest vars = Some c → skipped c = false) →
  ∀ c, closest vars' = Some c → skipped c = false.
Proof.
  unfold loop_body. intros Hbody Hvars.
  destruct (skipped zone) eqn:Hs; [by simplify_eq|].
  destruct (distance _ _ _ _) as [zone_dist|]; [|by simplify_eq].
  apply bind_Ok in Hbody as (within_zone & _ & Hbody).
  apply bind_Ok in Hbody as (closer_zone & _ & Hbody).
  apply bind_Ok in Hbody as (smaller_zone & _ & Hbody).
  destruct (within_zone && (closer_zone || smaller_zone)); simplify_eq; [|done].
  intros c [= <-]. done.
Qed.

Lemma for_zones_closest (states : gmap string State)
    (latitude longitude radius : Q) (ids : list string) :
  ∀ vars vars',
    for_zones round distance states latitude longitude radius ids vars
    = Ok vars' →
    (∀ c, closest vars = Some c → skipped c = false) →
    ∀ c, closest vars' = Some c → skipped c = false.
Proof.
  induction ids as [|entity_id ids IH]; intros vars vars' Hrun Hvars.
  - by simplify_eq/=.
  - simpl in Hrun. destruct (states !! entity_id) as [zone|]; [|done].
    destruct (loop_body _ _ _ _ _ vars zone) as [vars1|] eqn:Hbody; [|done].
    simpl in Hrun. eapply IH; [done|].
    by eapply loop_body_closest.
Qed.

Lemma in_zone_with_passive (passive : option bool) (zone : State)
    (latitude longitude radius : Q) :
  in_zone round distance (with_passive passive zone) latitude longitude radius =
  in_zone round distance zone latitude longitude radius.
Proof. done. Qed.

(** C9: a passive zone is never the result of [async_active_zone],
    while [in_zone] judges it by the distance and the radius alone: it
    answers [True] exactly when the zone is not unavailable, the
    distance and the radius are defined and the distance less the
    radius around the point is below the radius of the zone, as it would
    of the same zone were it not passive. *)
Theorem passive_zone_asymmetry (states : gmap string State)
    (latitude longitude radius : Q) (Z : State) :
  ATTR_PASSIVE (attributes Z) = Some true →
  async_active_zone round distance states latitude longitude radius
  ≠ Ok (Some Z)
  ∧ (in_zone round distance Z latitude longitude radius = true
     ↔ state Z ≠ STATE_UNAVAILABLE
       ∧ ∃ d zone_radius,
           zone_distance distance latitude longitude Z = Some d
           ∧ ATTR_RADIUS (attributes Z) = Some zone_radius
           ∧ (sub round d radius < zone_radius)%Q)
  ∧ in_zone round distance Z latitude longitude radius =
    in_zone round distance (with_passive (Some false) Z)
      latitude longitude radius.
Proof.
  intros Hpassive. split; [|split; [|by rewrite in_zone_with_passive]].
  - unfold async_active_zone. intros Hrun.
    destruct (for_zones _ _ _ _ _ _ _ _) as [vars|] eqn:Hfor; [|done].
    simpl in Hrun. injection Hrun as Hclosest.
    eapply for_zones_closest in Hfor; [| |done]; [|done].
    unfold skipped in Hfor. rewrite Hpassive in Hfor. simpl in Hfor.
    by rewrite orb_true_r in Hfor.
  - destruct (decide (state Z = STATE_UNAVAILABLE)) as [Hs|Hs].
    { rewrite in_zone_unavailable by done. split; [done|by intros [? _]]. }
    rewrite in_zone_available by done.
    destruct (zone_distance distance latitude longitude Z) as [d|].
    2:{ split; [done|]. by intros (_ & d & r & ? & _). }
    destruct (ATTR_RADIUS (attributes Z)) as [zone_radius|].
    2:{ split; [done|]. by intros (_ & d' & r & _ & ? & _). }
    rewrite Qltb_lt. split.
    + intros Hlt. split; [done|]. by exists d, zone_radius.
    + by intros (_ & d' & r & [= <-] & [= <-] & Hlt).
Qed.

End ActiveZone.

(** *** The engine on a small namespace *)

Section ContainmentExamples.
Import Fixtures Examples.
Local Open Scope Q_scope.

Example two_zones_handles :
  sorted (async_entity_ids two_zones DOMAIN) = ["zone.home"; "zone.office"].
Proof. vm_compute. reflexivity. Qed.

Example two_zones_inside :
  in_zone Binary64.round taxicab office 40 (-75) 0 = true
  ∧ in_zone Binary64.round taxicab office 40 (-25) 0 = false
  ∧ in_zone Binary64.round taxicab office 40 (-25) 1 = true
  ∧ in_zone Binary64.round taxicab office 100 (-75) 0 = false.
Proof. vm_compute. done. Qed.

(** A zone state without a radius: [in_zone] answers [False], the
    comparison in [async_active_zone] raises. *)
Example undefined_radius :
  in_zone Binary64.round taxicab unmeasured 40 (-75) 0 = false
  ∧ async_active_zone Binary64.round taxicab {[ "zone.void" := unmeasured ]}
      40 (-75) 0
    = Raise TypeError.
Proof. vm_compute. done. Qed.

Lemma async_active_zone_resolves_witness :
  radius_defined two_zones
  ∧ async_active_zone Binary64.round taxicab two_zones 40 (-75) 0
    = Ok (Some office)
  ∧ async_active_zone Binary64.round taxicab two_zones 40 100 0 = Ok None.
Proof.
  assert (radius_defined two_zones) as Hradius.
  { vm_compute. repeat constructor; eauto. }
  split; [exact Hradius|]. split.
  - destruct (async_active_zone_resolves Binary64.round taxicab two_zones
                40 (-75) 0)
      as (_ & _ & _ & Hrun & _).
    rewrite (Hrun Hradius). vm_compute. reflexivity.
  - destruct (async_active_zone_resolves Binary64.round taxicab two_zones
                40 100 0)
      as (_ & _ & _ & Hrun & _).
    rewrite (Hrun Hradius). vm_compute. reflexivity.
Defined.



(** Where the difference is rounded: a zone of radius [13.454] at
    distance [13.554], and a radius of [0.1] around the point.  The
    exact difference is below the radius of the zone; the difference of
    the floats is rounded to that radius, so the point is not inside. *)
Example rounded_boundary :
  zone_distance taxicab 0 0 edge_zone = Some float_13_554
  ∧ (float_13_554 - float_0_1 < float_13_454)%Q
  ∧ (sub Binary64.round float_13_554 float_0_1 == float_13_454)%Q
  ∧ in_zone Binary64.round taxicab edge_zone 0 0 float_0_1 = false
  ∧ in_zone exact taxicab edge_zone 0 0 float_0_1 = true
  ∧ async_active_zone Binary64.round taxicab {[ "zone.edge" := edge_zone ]}
      0 0 float_0_1
    = Ok None.
Proof. vm_compute. repeat split; congruence. Qed.

Lemma async_active_zone_nearest_witness :
  ∃ zone_dist,
    office ∈ (candidates two_zones).*2
    ∧ zone_distance taxicab 40 (-75) office = Some zone_dist
    ∧ within Binary64.round 0 office zone_dist = true
    ∧ ∀ other other_dist,
        other ∈ (candidates two_zones).*2 →
        zone_distance taxicab 40 (-75) other = Some other_dist →
        within Binary64.round 0 other other_dist = true →
        not_farther office zone_dist other other_dist.
Proof.
  apply (async_active_zone_nearest Binary64.round taxicab two_zones
           40 (-75) 0 office).
  vm_compute. reflexivity.
Defined.

Lemma passive_zone_asymmetry_witness :
  in_zone Binary64.round taxicab passive_zone 40 (-75) 0 = true
  ∧ async_active_zone Binary64.round taxicab
      {[ "zone.quiet" := passive_zone ]} 40 (-75) 0
    = Ok None
  ∧ async_active_zone Binary64.round taxicab
      {[ "zone.quiet" := with_passive (Some false) passive_zone ]} 40 (-75) 0
    = Ok (Some (with_passive (Some false) passive_zone))
  ∧ in_zone Binary64.round taxicab passive_zone 40 (-75) 200 = true
  ∧ in_zone Binary64.round taxicab passive_zone 40 100 0 = false.
Proof.
  destruct (passive_zone_asymmetry Binary64.round taxicab
              {[ "zone.quiet" := passive_zone ]} 40 (-75) 0 passive_zone
              eq_refl) as (_ & Hrule & _).
  split.
  - apply Hrule. split; [discriminate|]. exists 0, 100.
    split; [reflexivity|]. split; reflexivity.
  - vm_compute. repeat split; reflexivity.
Defined.

End ContainmentExamples.

(** ** The zone entity *)

Section ZoneEntity.
Import Zone.

Lemma generate_attrs_snapshot (self : Zone) :
  _attrs (_generate_attrs self)
  = Some (snapshot (_config self) (editable self)).
Proof. done. Qed.

Lemma generate_attrs_persons (self : Zone) :
  _persons_in_zone (_generate_attrs self) = _persons_in_zone self.
Proof. done. Qed.

Lemma async_update_config_same (self : Zone) (config : Config) :
  config_eqb (_config self) config = true →
  async_update_config self config = (RNone, self, []).
Proof. intros H. unfold async_update_config. by rewrite H. Qed.

Lemma async_update_config_changed (self : Zone) (config : Config) :
  config_eqb (_config self) config = false →
  async_update_config self config =
  (RNone, _generate_attrs (set_config config self),
   [async_write_ha_state (_generate_attrs (set_config config self))]).
Proof. intros H. unfold async_update_config. by rewrite H. Qed.

(** C5, as the code has it: [async_update_config] is a no-op when the
    new definition equals the current one field by field; otherwise it
    replaces the definition, regenerates the attributes and republishes
    once, by itself; it returns [None] either way, and regenerating the
    attributes leaves the occupants alone. *)
Theorem async_update_config_applies (self : Zone) (config : Config) :
  (async_update_config self config).1.1 = RNone
  ∧ _persons_in_zone (async_update_config self config).1.2
    = _persons_in_zone self
  ∧ _persons_in_zone (_generate_attrs self) = _persons_in_zone self
  ∧ (if config_eqb (_config self) config
     then (async_update_config self config).1.2 = self
          ∧ (async_update_config self config).2 = []
     else _config (async_update_config self config).1.2 = config
          ∧ _attrs (async_update_config self config).1.2
            = Some (snapshot config (editable self))
          ∧ editable (async_update_config self config).1.2 = editable self
          ∧ entity_id (async_update_config self config).1.2 = entity_id self
          ∧ (async_update_config self config).2
            = [ {| written_entity_id := entity_id self;
                   written_state := size (_persons_in_zone self);
                   written_attributes :=
                     Some (snapshot config (editable self)) |} ]).
Proof.
  destruct (config_eqb (_config self) config) eqn:Heq.
  - by rewrite async_update_config_same.
  - by rewrite async_update_config_changed.
Qed.

(** C5, as the specification has it, fails where the definition
    changes: the call returns [None], not [True]; and it returns
    [None], not [False], where the definition is the same. *)
Lemma async_update_config_returns_None :
  config_eqb (_config Fixtures.office_zone) Fixtures.wider_conf = false
  ∧ (async_update_config Fixtures.office_zone Fixtures.wider_conf).1.1 = RNone
  ∧ config_eqb (_config Fixtures.office_zone) Fixtures.office_conf = true
  ∧ (async_update_config Fixtures.office_zone Fixtures.office_conf).1.1
    = RNone
  ∧ RNone ≠ RBool true
  ∧ RNone ≠ RBool false.
Proof. repeat split; done. Qed.

(** *** Occupants *)

Lemma state_is_reports (evt : Event) (object_id : string) :
  state_is (data_new_state evt) object_id = true ↔ reports evt object_id.
Proof.
  unfold state_is, reports. destruct (data_new_state evt) as [st|].
  - rewrite bool_decide_eq_true. split; [by exists st|].
    by intros (st' & [= <-] & ?).
  - split; [done|]. by intros (st' & ? & _).
Qed.

Lemma listener_result (self : Zone) (evt : Event) (object_id : string) :
  object_id_of self = Ok object_id →
  ∃ persons,
    _person_state_change_listener self evt =
    Ok (set_persons persons self,
        if bool_decide (size persons ≠ size (_persons_in_zone self))
        then [async_write_ha_state (set_persons persons self)]
        else [])
    ∧ persons =
      if state_is (data_new_state evt) object_id
      then {[data_entity_id evt]} ∪ _persons_in_zone self
      else _persons_in_zone self ∖ {[data_entity_id evt]}.
Proof.
  intros Hid. unfold _person_state_change_listener. rewrite Hid. simpl.
  destruct (state_is (data_new_state evt) object_id).
  - eexists. split; [|reflexivity]. simpl. by case_bool_decide.
  - destruct (decide (data_entity_id evt ∈ _persons_in_zone self)) as [Hin|Hin].
    + rewrite (bool_decide_eq_true_2 _ Hin).
      eexists. split; [|reflexivity]. simpl. by case_bool_decide.
    + rewrite (bool_decide_eq_false_2 _ Hin).
      exists (_persons_in_zone self). split.
      * rewrite bool_decide_eq_false_2 by (by intros ?).
        by destruct self.
      * symmetry. apply difference_disjoint_L.
        by apply disjoint_singleton_r.
Qed.

Lemma partition_handle (domain object_id : string) :
  contains "." domain = false →
  partition "." (domain +:+ "." +:+ object_id) = (domain, ".", object_id).
Proof.
  induction domain as [|c domain IH]; intros Hdot; [done|].
  simpl in *. apply orb_false_iff in Hdot as [Hc Hdot].
  rewrite Hc. by rewrite IH.
Qed.

Lemma split_entity_id_handle (domain object_id : string) :
  contains "." domain = false → domain ≠ "" → object_id ≠ "" →
  split_entity_id (domain +:+ "." +:+ object_id) = Ok (domain, object_id).
Proof.
  intros Hdot Hd Ho. unfold split_entity_id.
  rewrite partition_handle by done.
  by rewrite !bool_decide_eq_false_2.
Qed.

Lemma listener_membership (self : Zone) (evt : Event) (object_id : string) :
  object_id_of self = Ok object_id →
  ∃ self' written,
    _person_state_change_listener self evt = Ok (self', written)
    ∧ (reports evt object_id →
       _persons_in_zone self' = {[data_entity_id evt]} ∪ _persons_in_zone self)
    ∧ (¬ reports evt object_id →
       _persons_in_zone self' = _persons_in_zone self ∖ {[data_entity_id evt]})
    ∧ (data_entity_id evt ∈ _persons_in_zone self' ↔ reports evt object_id)
    ∧ _config self' = _config self
    ∧ _attrs self' = _attrs self
    ∧ (size (_persons_in_zone self') ≠ size (_persons_in_zone self) →
       written = [ {| written_entity_id := entity_id self;
                      written_state := size (_persons_in_zone self');
                      written_attributes := _attrs self |} ])
    ∧ (size (_persons_in_zone self') = size (_persons_in_zone self) →
       written = []).
Proof.
  intros Hid.
  destruct (listener_result self evt object_id Hid) as (persons & Hrun & Hp).
  eexists _, _. split; [exact Hrun|]. simpl.
  pose proof (state_is_reports evt object_id) as Hrep.
  destruct (state_is (data_new_state evt) object_id).
  - assert (reports evt object_id) as Hyes by (by apply Hrep).
    split; [done|]. split; [done|].
    split; [rewrite Hp; split; [done|intros _]; apply elem_of_union_l;
            by apply elem_of_singleton|].
    split; [done|]. split; [done|].
    split; intros Hsize.
    + by rewrite bool_decide_eq_true_2.
    + by rewrite bool_decide_eq_false_2 by (by intros ?).
  - assert (¬ reports evt object_id) as Hno by (by rewrite <- Hrep).
    split; [done|]. split; [done|].
    split; [rewrite Hp; split; [|done]; intros Hin;
            apply elem_of_difference in Hin as [_ Hin]; destruct Hin;
            by apply elem_of_singleton|].
    split; [done|]. split; [done|].
    split; intros Hsize.
    + by rewrite bool_decide_eq_true_2.
    + by rewrite bool_decide_eq_false_2 by (by intros ?).
Qed.

(** C6: for a zone whose handle is a domain, a dot and a bare
    identifier, an event adds the occupant exactly when its new state is
    that identifier, and removes it otherwise; the zone is republished,
    with the new count as its state, exactly when the number of
    occupants changed. *)
Theorem person_state_change_membership (self : Zone) (evt : Event)
    (domain object_id : string) :
  entity_id self = Some (domain +:+ "." +:+ object_id) →
  contains "." domain = false → domain ≠ "" → object_id ≠ "" →
  ∃ self' written,
    _person_state_change_listener self evt = Ok (self', written)
    ∧ (reports evt object_id →
       _persons_in_zone self' = {[data_entity_id evt]} ∪ _persons_in_zone self)
    ∧ (¬ reports evt object_id →
       _persons_in_zone self' = _persons_in_zone self ∖ {[data_entity_id evt]})
    ∧ (data_entity_id evt ∈ _persons_in_zone self' ↔ reports evt object_id)
    ∧ _config self' = _config self
    ∧ _attrs self' = _attrs self
    ∧ (size (_persons_in_zone self') ≠ size (_persons_in_zone self) →
       written = [ {| written_entity_id := entity_id self;
                      written_state := size (_persons_in_zone self');
                      written_attributes := _attrs self |} ])
    ∧ (size (_persons_in_zone self') = size (_persons_in_zone self) →
       written = []).
Proof.
  intros Hhandle Hdot Hd Ho. apply listener_membership.
  unfold object_id_of. rewrite Hhandle.
  by rewrite split_entity_id_handle.
Qed.

(** *** What is derived, and never stored *)

Lemma added_to_hass_fields (self self' : Zone) (states : gmap string State) :
  async_added_to_hass self states = Ok self' →
  _config self' = _config self ∧ _attrs self' = _attrs self
  ∧ editable self' = editable self.
Proof.
  unfold async_added_to_hass. intros Hrun.
  apply bind_Ok in Hrun as (object_id & _ & Hrun). injection Hrun as <-.
  simpl. generalize (async_entity_ids states "person"). intros persons.
  revert self. induction persons as [|person persons IH]; intros self; [done|].
  simpl. destruct (IH (if state_is (states !! person) object_id
                       then set_persons ({[person]} ∪ _persons_in_zone self) self
                       else self)) as (-> & -> & ->).
  by destruct (state_is (states !! person) object_id).
Qed.

Lemma apply_op_fields (self self' : Zone) (o : op) (written : list Written) :
  apply_op self o = Ok (self', written) →
  _attrs self = Some (snapshot (_config self) (editable self)) →
  _attrs self' = Some (snapshot (_config self') (editable self'))
  ∧ editable self' = editable self
  ∧ Forall (λ w, w = async_write_ha_state self') written.
Proof.
  intros Hop Hinv. destruct o as [entity_id'|states|config|evt]; simpl in Hop.
  - injection Hop as <- <-. by repeat split.
  - apply bind_Ok in Hop as (self1 & Hadd & Hop). injection Hop as <- <-.
    apply added_to_hass_fields in Hadd as (-> & -> & ->). by repeat split.
  - destruct (config_eqb (_config self) config) eqn:Heq.
    + rewrite async_update_config_same in Hop by done.
      injection Hop as <- <-. by repeat split.
    + rewrite async_update_config_changed in Hop by done.
      injection Hop as <- <-. repeat split; by repeat constructor.
  - destruct (object_id_of self) as [object_id|] eqn:Hid.
    + destruct (listener_result self evt object_id Hid) as (persons & Hrun & _).
      rewrite Hrun in Hop. injection Hop as <- <-.
      repeat split; [done|]. case_bool_decide; by repeat constructor.
    + unfold _person_state_change_listener in Hop. by rewrite Hid in Hop.
Qed.

Lemma run_fields (ops : list op) :
  ∀ self,
    _attrs self = Some (snapshot (_config self) (editable self)) →
    _attrs (run self ops).1
    = Some (snapshot (_config (run self ops).1) (editable (run self ops).1))
    ∧ editable (run self ops).1 = editable self
    ∧ Forall (λ w, ∃ config,
                written_attributes w = Some (snapshot config (editable self)))
             (run self ops).2.
Proof.
  induction ops as [|o ops IH]; intros self Hinv; [by repeat split|].
  simpl. destruct (apply_op self o) as [[self1 written1]|] eqn:Hop.
  - apply apply_op_fields in Hop as (Hinv1 & Hed & Hw); [|done].
    destruct (IH self1 Hinv1) as (Ha & He & Hws).
    destruct (run self1 ops) as [self2 written2]. simpl in *.
    split; [done|]. split; [congruence|].
    apply Forall_app. split.
    + eapply Forall_impl; [exact Hw|]. intros w ->.
      exists (_config self1). unfold async_write_ha_state, extra_state_attributes.
      simpl. by rewrite Hinv1, Hed.
    + by rewrite <- Hed.
  - by apply IH.
Qed.

(** C8: whatever happens to a zone entity, its state is the number of
    its occupants, computed when read, and its attributes are the
    snapshot of its current definition and of its editable flag; every
    attributes bag it republishes is such a snapshot. *)
Theorem zone_entity_derived_state (config : Config) (from_source : bool)
    (ops : list op) :
  state (run (if from_source then from_yaml config else __init__ config) ops).1
  = size (_persons_in_zone
            (run (if from_source then from_yaml config
                  else __init__ config) ops).1)
  ∧ extra_state_attributes
      (run (if from_source then from_yaml config else __init__ config) ops).1
    = Some (snapshot
              (_config (run (if from_source then from_yaml config
                             else __init__ config) ops).1)
              (negb from_source))
  ∧ editable
      (run (if from_source then from_yaml config else __init__ config) ops).1
    = negb from_source
  ∧ Forall (λ w, ∃ config',
              written_attributes w = Some (snapshot config' (negb from_source)))
           (run (if from_source then from_yaml config
                 else __init__ config) ops).2
  ∧ (∀ o self' written,
       apply_op
         (run (if from_source then from_yaml config
               else __init__ config) ops).1 o = Ok (self', written) →
       Forall (λ w, written_state w = size (_persons_in_zone self')
                    ∧ written_attributes w
                      = Some (snapshot (_config self') (negb from_source)))
              written).
Proof.
  split; [done|].
  destruct (run_fields ops
              (if from_source then from_yaml config else __init__ config))
    as (Ha & He & Hw).
  { by destruct from_source. }
  assert (editable (if from_source then from_yaml config else __init__ config)
          = negb from_source) as Hed by (by destruct from_source).
  rewrite Hed in He, Hw. unfold extra_state_attributes.
  rewrite Ha, He. repeat split; [done|].
  intros o self' written Hop.
  apply apply_op_fields in Hop as (Ha' & He' & Hw'); [|done].
  eapply Forall_impl; [exact Hw'|]. intros w ->.
  unfold async_write_ha_state, extra_state_attributes, state. simpl.
  by rewrite Ha', He', He.
Qed.

(** *** Attaching the entity *)

Lemma scan_persons (states : gmap string State) (object_id : string)
    (persons : list string) :
  ∀ self person,
    person ∈ _persons_in_zone
      (foldl (λ self person,
                if state_is (states !! person) object_id
                then set_persons ({[person]} ∪ _persons_in_zone self) self
                else self)
             self persons)
    ↔ person ∈ _persons_in_zone self
      ∨ (person ∈ persons ∧ state_is (states !! person) object_id = true).
Proof.
  induction persons as [|p persons IH]; intros self person; simpl.
  - split; [by left|]. intros [?|[Hin _]]; [done|].
    by apply elem_of_nil in Hin.
  - rewrite IH. destruct (state_is (states !! p) object_id) eqn:Hp; simpl.
    + rewrite elem_of_union, elem_of_singleton, elem_of_cons. split.
      * intros [[->|?]|[? ?]]; auto.
      * intros [?|[[->|?] ?]]; auto.
    + rewrite elem_of_cons. split.
      * intros [?|[? ?]]; auto.
      * intros [?|[[->|?] Hst]]; auto. congruence.
Qed.

(** X3: when the entity is attached, the persons whose state is the
    bare identifier of the zone join its occupants, and the entity is
    subscribed to the changes of the persons. *)
Theorem async_added_to_hass_scans (self : Zone) (states : gmap string State)
    (domain object_id : string) :
  entity_id self = Some (domain +:+ "." +:+ object_id) →
  contains "." domain = false → domain ≠ "" → object_id ≠ "" →
  ∃ self',
    async_added_to_hass self states = Ok self'
    ∧ subscribed self' = true
    ∧ ∀ person,
        person ∈ _persons_in_zone self'
        ↔ person ∈ _persons_in_zone self
          ∨ (in_domain "person" person = true
             ∧ ∃ st, states !! person = Some st
                     ∧ Core.state st = object_id).
Proof.
  intros Hhandle Hdot Hd Ho. unfold async_added_to_hass, object_id_of.
  rewrite Hhandle, split_entity_id_handle by done. simpl.
  eexists. split; [reflexivity|]. split; [done|].
  intros person. simpl. rewrite scan_persons, elem_of_async_entity_ids.
  unfold state_is. split.
  - intros [?|[[[st Hst] Hp] Hs]]; [by left|]. right. split; [done|].
    exists st. split; [done|]. rewrite Hst in Hs.
    by apply bool_decide_eq_true in Hs.
  - intros [?|[Hp (st & Hst & Hs)]]; [by left|]. right.
    rewrite Hst. split; [split; [by exists st|done]|].
    by apply bool_decide_eq_true.
Qed.

(** *** The entity on an example *)

Lemma async_added_to_hass_scans_witness :
  ∃ self',
    async_added_to_hass Fixtures.office_zone Fixtures.two_zones = Ok self'
    ∧ subscribed self' = true
    ∧ "person.ann" ∈ _persons_in_zone self'.
Proof.
  destruct (async_added_to_hass_scans Fixtures.office_zone Fixtures.two_zones
              "zone" "office" eq_refl eq_refl)
    as (self' & Hrun & Hsub & Hscan); [discriminate|discriminate|].
  exists self'. split; [exact Hrun|]. split; [exact Hsub|].
  apply Hscan. right. split; [reflexivity|].
  exists Fixtures.person_state. split; reflexivity.
Defined.


Lemma person_state_change_membership_witness :
  ∃ self' written,
    _person_state_change_listener Fixtures.office_zone Fixtures.arrives
    = Ok (self', written)
    ∧ _persons_in_zone self' = {[ "person.ann" ]}
    ∧ written = [ {| written_entity_id := Some "zone.office";
                     written_state := 1;
                     written_attributes :=
                       Some (snapshot Fixtures.office_conf true) |} ].
Proof.
  destruct (person_state_change_membership
              Fixtures.office_zone Fixtures.arrives "zone" "office" eq_refl
              eq_refl)
    as (self' & written & Hrun & Hadd & _ & _ & _ & _ & Hpub & _);
    [discriminate|discriminate|].
  exists self', written. split; [exact Hrun|].
  assert (reports Fixtures.arrives "office") as Hrep.
  { exists Fixtures.person_state. split; reflexivity. }
  specialize (Hadd Hrep). simpl in Hadd.
  assert (_persons_in_zone self' = {[ "person.ann" ]}) as Hset.
  { rewrite Hadd. apply union_empty_r_L. }
  assert (size (_persons_in_zone self') = 1) as Hsize.
  { rewrite Hset. apply size_singleton. }
  split; [exact Hset|].
  rewrite Hpub.
  - rewrite Hsize. reflexivity.
  - rewrite Hsize.
    change (_persons_in_zone Fixtures.office_zone) with (∅ : gset string).
    rewrite size_empty. discriminate.
Defined.

End ZoneEntity.

(** ** Validation of create and update requests *)

Section Validation.
Import Zone Storage.

Lemma cv_latitude_Ok (v : Q) :
  valid_latitude v → cv_latitude v = Ok v.
Proof.
  intros [Hlo Hhi]. unfold cv_latitude.
  apply Qle_bool_iff in Hlo, Hhi. by rewrite Hlo, Hhi.
Qed.

Lemma cv_latitude_Raise (v : Q) :
  ¬ valid_latitude v → cv_latitude v = Raise (Invalid "latitude").
Proof.
  intros Hbad. unfold cv_latitude.
  destruct (Qle_bool (-90) v) eqn:Hlo, (Qle_bool v 90) eqn:Hhi; try done.
  destruct Hbad. split; by apply Qle_bool_iff.
Qed.

Lemma cv_longitude_Ok (v : Q) :
  valid_longitude v → cv_longitude v = Ok v.
Proof.
  intros [Hlo Hhi]. unfold cv_longitude.
  apply Qle_bool_iff in Hlo, Hhi. by rewrite Hlo, Hhi.
Qed.

Lemma cv_longitude_Raise (v : Q) :
  ¬ valid_longitude v → cv_longitude v = Raise (Invalid "longitude").
Proof.
  intros Hbad. unfold cv_longitude.
  destruct (Qle_bool (-180) v) eqn:Hlo, (Qle_bool v 180) eqn:Hhi; try done.
  destruct Hbad. split; by apply Qle_bool_iff.
Qed.

Lemma valid_latitude_dec (v : Q) : valid_latitude v ∨ ¬ valid_latitude v.
Proof.
  unfold valid_latitude.
  destruct (Qlt_le_dec v (-90)) as [H1|H1], (Qlt_le_dec 90 v) as [H2|H2];
    try (right; intros [? ?]; lra).
  by left.
Qed.

Lemma valid_longitude_dec (v : Q) : valid_longitude v ∨ ¬ valid_longitude v.
Proof.
  unfold valid_longitude.
  destruct (Qlt_le_dec v (-180)) as [H1|H1], (Qlt_le_dec 180 v) as [H2|H2];
    try (right; intros [? ?]; lra).
  by left.
Qed.

Section Collection.

Variable cv_icon : string → result string.
Variable generate_id : gmap string Config → string → string.

Lemma create_rejected (data : Fields) :
  (∃ e, _process_create_data cv_icon data = Raise e)
  ↔ name data = None
    ∨ (∀ v, latitude data = Some v → ¬ valid_latitude v)
    ∨ (∀ v, longitude data = Some v → ¬ valid_longitude v)
    ∨ icon_refused cv_icon data.
Proof.
  unfold _process_create_data, CREATE_SCHEMA, Required, Optional_default,
    Optional, Coerce_float, cv_string, cv_boolean, icon_refused.
  destruct (name data) as [n|]; simpl; [|split; eauto].
  destruct (latitude data) as [lat|]; simpl;
    [|split; [intros _; right; left; by intros|eauto]].
  destruct (valid_latitude_dec lat) as [Hlat|Hlat].
  2:{ rewrite cv_latitude_Raise by done. simpl.
      split; [|eauto]. intros _. right. left. by intros v [= <-]. }
  rewrite cv_latitude_Ok by done. simpl.
  destruct (longitude data) as [lon|]; simpl;
    [|split; [intros _; right; right; left; by intros|eauto]].
  destruct (valid_longitude_dec lon) as [Hlon|Hlon].
  2:{ rewrite cv_longitude_Raise by done. simpl.
      split; [|eauto]. intros _. right. right. left. by intros v [= <-]. }
  rewrite cv_longitude_Ok by done. simpl.
  destruct (icon data) as [i|]; simpl.
  - destruct (cv_icon i) as [i'|e] eqn:Hi; simpl.
    + split; [by intros [e ?]|].
      intros [?|[H|[H|(i0 & e & [= <-] & Hr)]]]; try done;
        try (by edestruct H). congruence.
    + split; [|eauto]. intros _. do 3 right. by exists i, e.
  - split; [by intros [e ?]|].
    intros [?|[H|[H|(i0 & e & ? & _)]]]; try done; by edestruct H.
Qed.

Lemma update_rejected (data : Fields) :
  (∃ e, UPDATE_SCHEMA cv_icon data = Raise e)
  ↔ (∃ v, latitude data = Some v ∧ ¬ valid_latitude v)
    ∨ (∃ v, longitude data = Some v ∧ ¬ valid_longitude v)
    ∨ icon_refused cv_icon data.
Proof.
  unfold UPDATE_SCHEMA, Optional, Coerce_float, cv_string, cv_boolean,
    icon_refused.
  assert (∀ m : result (option string), m ≫= Ok = m) as Hname
    by (by intros [?|?]).
  destruct (name data) as [n|]; simpl;
    (destruct (latitude data) as [lat|]; simpl;
     [destruct (valid_latitude_dec lat) as [Hlat|Hlat];
      [rewrite cv_latitude_Ok by done|
       rewrite cv_latitude_Raise by done; simpl; split; eauto]|]; simpl;
     (destruct (longitude data) as [lon|]; simpl;
      [destruct (valid_longitude_dec lon) as [Hlon|Hlon];
       [rewrite cv_longitude_Ok by done|
        rewrite cv_longitude_Raise by done; simpl; split; eauto]|]; simpl;
      destruct (radius data), (passive data); simpl;
      (destruct (icon data) as [i|]; simpl;
       [destruct (cv_icon i) as [i'|e] eqn:Hi; simpl;
        [|split; [intros _; do 2 right; by exists i, e|eauto]]|];
       (split; [by intros [e ?]|]);
       intros [(v & ? & ?)|[(v & ? & ?)|(i0 & e & ? & ?)]];
       simplify_eq; congruence))).
Qed.

(** An update that carries only a radius changes only the radius, to
    any number. *)
Theorem update_radius_only (data : Config) (r : Q) :
  _update_data cv_icon data
    {| name := None; latitude := None; longitude := None;
       radius := Some r; passive := None; icon := None |}
  = Ok {| CONF_NAME := CONF_NAME data;
          CONF_LATITUDE := CONF_LATITUDE data;
          CONF_LONGITUDE := CONF_LONGITUDE data;
          CONF_RADIUS := r;
          CONF_PASSIVE := CONF_PASSIVE data;
          CONF_ICON := CONF_ICON data;
          CONF_ID := CONF_ID data |}.
Proof. done. Qed.

(** X4: a create request without radius and passive flag gets the
    defaults. *)
Theorem create_defaults (n : string) (lat lon : Q) :
  valid_latitude lat → valid_longitude lon →
  _process_create_data cv_icon
    {| name := Some n; latitude := Some lat; longitude := Some lon;
       radius := None; passive := None; icon := None |}
  = Ok {| CONF_NAME := n;
          CONF_LATITUDE := lat;
          CONF_LONGITUDE := lon;
          CONF_RADIUS := 100;
          CONF_PASSIVE := false;
          CONF_ICON := None;
          CONF_ID := None |}.
Proof.
  intros Hlat Hlon.
  unfold _process_create_data, CREATE_SCHEMA, Required, Optional_default,
    Optional, Coerce_float, cv_string, cv_boolean. simpl.
  rewrite cv_latitude_Ok by done. simpl.
  rewrite cv_longitude_Ok by done. done.
Qed.

(** C7, as the code has it: a create request is rejected exactly when
    the name is missing, a coordinate is missing or out of range, or the
    icon is refused; an update request exactly when a coordinate it
    carries is out of range or its icon is refused; a rejected request
    leaves the stored zones as they were.  The radius is only coerced,
    so no radius, positive or not, is rejected. *)
Theorem validation_rejects_before_mutation (items : gmap string Config)
    (data : Fields) (item_id : string) :
  ((∃ e, (async_create_item cv_icon generate_id items data).1 = Raise e)
   ↔ name data = None
     ∨ (∀ v, latitude data = Some v → ¬ valid_latitude v)
     ∨ (∀ v, longitude data = Some v → ¬ valid_longitude v)
     ∨ icon_refused cv_icon data)
  ∧ ((∃ e, (async_create_item cv_icon generate_id items data).1 = Raise e) →
     (async_create_item cv_icon generate_id items data).2 = items)
  ∧ (is_Some (items !! item_id) →
     ((∃ e, (async_update_item cv_icon items item_id data).1 = Raise e)
      ↔ (∃ v, latitude data = Some v ∧ ¬ valid_latitude v)
        ∨ (∃ v, longitude data = Some v ∧ ¬ valid_longitude v)
        ∨ icon_refused cv_icon data))
  ∧ ((∃ e, (async_update_item cv_icon items item_id data).1 = Raise e) →
     (async_update_item cv_icon items item_id data).2 = items).
Proof.
  split; [|split; [|split]].
  - rewrite <- create_rejected. unfold async_create_item.
    destruct (_process_create_data cv_icon data) as [item|e]; simpl.
    + split; by intros [e ?].
    + split; eauto.
  - unfold async_create_item.
    destruct (_process_create_data cv_icon data) as [item|e]; simpl; [|done].
    by intros [e ?].
  - intros [current Hcur]. rewrite <- update_rejected.
    unfold async_update_item, _update_data. rewrite Hcur.
    destruct (UPDATE_SCHEMA cv_icon data) as [update_data|e]; simpl.
    + split; by intros [e ?].
    + split; eauto.
  - unfold async_update_item.
    destruct (items !! item_id) as [current|]; simpl; [|done].
    destruct (_update_data cv_icon current data) as [updated|e]; simpl; [|done].
    by intros [e ?].
Qed.

End Collection.

(** C7, as the specification has it, fails on the radius: a create
    request with radius [-5] and an update request with radius [0] are
    accepted, and both change the stored zones. *)
Lemma nonpositive_radius_accepted :
  _process_create_data Fixtures.prefixed_icon Fixtures.pit_fields
  = Ok Fixtures.pit_conf
  ∧ Qle_bool (CONF_RADIUS Fixtures.pit_conf) 0 = true
  ∧ async_create_item Fixtures.prefixed_icon Fixtures.suggested ∅
      Fixtures.pit_fields
    = (Ok (with_id "Pit" Fixtures.pit_conf),
       <["Pit" := with_id "Pit" Fixtures.pit_conf]> ∅)
  ∧ CONF_RADIUS <$> _update_data Fixtures.prefixed_icon Fixtures.office_conf
                      Fixtures.zero_radius
    = Ok 0%Q
  ∧ (async_update_item Fixtures.prefixed_icon
       (<["Pit" := with_id "Pit" Fixtures.pit_conf]> ∅)
       "Pit" Fixtures.zero_radius).2
    = <["Pit" := merge (with_id "Pit" Fixtures.pit_conf) Fixtures.zero_radius]>
        (<["Pit" := with_id "Pit" Fixtures.pit_conf]> ∅).
Proof. repeat split. Qed.

Lemma create_defaults_witness :
  _process_create_data Fixtures.prefixed_icon
    {| name := Some "Office"; latitude := Some 40%Q; longitude := Some (-75)%Q;
       radius := None; passive := None; icon := None |}
  = Ok {| CONF_NAME := "Office";
          CONF_LATITUDE := 40;
          CONF_LONGITUDE := -75;
          CONF_RADIUS := 100;
          CONF_PASSIVE := false;
          CONF_ICON := None;
          CONF_ID := None |}.
Proof.
  apply (create_defaults Fixtures.prefixed_icon "Office" 40 (-75)).
  - split; discriminate.
  - split; discriminate.
Defined.

Example out_of_range_latitude_rejected :
  async_create_item Fixtures.prefixed_icon Fixtures.suggested ∅
    Fixtures.north_of_the_pole
  = (Raise (Invalid "latitude"), ∅).
Proof. reflexivity. Qed.

End Validation.

(** ** Setup and reload *)

Section SetupFacts.
Import Zone Setup.

Variable yaml_collection_async_load : list Config → Hass → Hass.
Variable storage_collection_async_load : Hass → Hass.
Variable websocket_async_setup : Hass → Hass.
Variable async_add_entities : list Zone → Hass → Hass.
Variable async_prepare_reload : Hass → option (list Config).

(** C4, as the code has it: when the fetch of the configuration fails,
    the reload handler changes nothing and returns as a call that went
    well does. *)
Theorem reload_fetch_failure_keeps_namespace (hass : Hass) :
  async_prepare_reload hass = None →
  reload_service_handler yaml_collection_async_load async_prepare_reload hass
  = (Ok RNone, hass).
Proof. intros Hfetch. unfold reload_service_handler. by rewrite Hfetch. Qed.

Lemma async_fire_no_listener (event_type : string) (hass : Hass) :
  Forall (λ entry, entry.1 ≠ event_type) (bus hass) →
  async_fire event_type hass = hass.
Proof.
  unfold async_fire. generalize (bus hass). intros listeners.
  revert hass. induction listeners as [|[t l] listeners IH]; intros hass Hall;
    [done|].
  apply Forall_cons in Hall as [Ht Hall]. simpl in *.
  rewrite bool_decide_eq_false_2 by done. by apply IH.
Qed.

(** X6: the listener [core_config_updated] gives the home zone the
    definition made from the core configuration: nothing happens when
    that is the definition it has; otherwise the zone takes it and is
    republished once. *)
Theorem core_config_updated_applies (hass : Hass) (home_zone : string)
    (zone : Zone) :
  entities hass !! home_zone = Some zone →
  (config_eqb (_config zone) (_home_conf hass) = true →
   run_listener (core_config_updated home_zone) hass = hass)
  ∧ (config_eqb (_config zone) (_home_conf hass) = false →
     entities (run_listener (core_config_updated home_zone) hass) !! home_zone
     = Some (_generate_attrs (set_config (_home_conf hass) zone))
     ∧ written (run_listener (core_config_updated home_zone) hass)
       = (written hass
          ++ [async_write_ha_state
                (_generate_attrs (set_config (_home_conf hass) zone))])%list).
Proof.
  intros Hzone. unfold run_listener. rewrite Hzone. split; intros Heq.
  - rewrite async_update_config_same by done.
    unfold add_written, set_entities. simpl.
    rewrite insert_id by done. rewrite app_nil_r. by destruct hass.
  - rewrite async_update_config_changed by done. simpl.
    split; [apply lookup_insert_eq|done].
Qed.

(** C10: when an entity [zone.home] exists once both origins have been
    loaded, [async_setup] returns at once: no home zone is made, no
    listener for changes of the core configuration is registered, and
    the storage collection is not put in [hass.data]; a later change of
    the core configuration then reaches no zone. *)
Theorem async_setup_existing_home (hass : Hass) (config : list Config)
    (zone : Zone) :
  get_entity
    (loaded yaml_collection_async_load storage_collection_async_load
       websocket_async_setup hass config) "zone.home" = Some zone →
  async_setup yaml_collection_async_load storage_collection_async_load
    websocket_async_setup async_add_entities hass config
  = (true,
     loaded yaml_collection_async_load storage_collection_async_load
       websocket_async_setup hass config)
  ∧ entities
      (async_setup yaml_collection_async_load storage_collection_async_load
         websocket_async_setup async_add_entities hass config).2
    = entities
        (loaded yaml_collection_async_load storage_collection_async_load
           websocket_async_setup hass config)
  ∧ bus
      (async_setup yaml_collection_async_load storage_collection_async_load
         websocket_async_setup async_add_entities hass config).2
    = bus
        (websocket_async_setup
           (storage_collection_async_load
              (match config with
               | [] => hass
               | _ :: _ => yaml_collection_async_load config hass
               end)))
  ∧ data
      (async_setup yaml_collection_async_load storage_collection_async_load
         websocket_async_setup async_add_entities hass config).2
    = data
        (websocket_async_setup
           (storage_collection_async_load
              (match config with
               | [] => hass
               | _ :: _ => yaml_collection_async_load config hass
               end)))
  ∧ (Forall (λ entry, entry.1 ≠ EVENT_CORE_CONFIG_UPDATE)
       (bus
          (loaded yaml_collection_async_load storage_collection_async_load
             websocket_async_setup hass config)) →
     ∀ config',
       async_fire EVENT_CORE_CONFIG_UPDATE
         (set_core_config config'
            (async_setup yaml_collection_async_load
               storage_collection_async_load websocket_async_setup
               async_add_entities hass config).2)
       = set_core_config config'
           (async_setup yaml_collection_async_load
              storage_collection_async_load websocket_async_setup
              async_add_entities hass config).2).
Proof.
  intros Hhome. unfold async_setup. rewrite Hhome. simpl.
  repeat split. intros Hbus config'. by apply async_fire_no_listener.
Qed.

(** X2: without such an entity the home zone is made from the core
    configuration and added under the reserved handle, the listener is
    registered and the storage collection is recorded. *)
Theorem async_setup_synthesizes_home (hass : Hass) (config : list Config) :
  get_entity
    (loaded yaml_collection_async_load storage_collection_async_load
       websocket_async_setup hass config) "zone.home" = None →
  (async_setup yaml_collection_async_load storage_collection_async_load
     websocket_async_setup async_add_entities hass config).1 = true
  ∧ (async_setup yaml_collection_async_load storage_collection_async_load
       websocket_async_setup async_add_entities hass config).2
    = set_data DOMAIN storage_collection
        (async_listen EVENT_CORE_CONFIG_UPDATE
           (core_config_updated ENTITY_ID_HOME)
           (async_add_entities
              [set_entity_id ENTITY_ID_HOME
                 (__init__
                    (_home_conf
                       (loaded yaml_collection_async_load
                          storage_collection_async_load
                          websocket_async_setup hass config)))]
              (loaded yaml_collection_async_load
                 storage_collection_async_load
                 websocket_async_setup hass config)))
  ∧ (EVENT_CORE_CONFIG_UPDATE, core_config_updated ENTITY_ID_HOME)
    ∈ bus
        (async_setup yaml_collection_async_load storage_collection_async_load
           websocket_async_setup async_add_entities hass config).2
  ∧ data
      (async_setup yaml_collection_async_load storage_collection_async_load
         websocket_async_setup async_add_entities hass config).2 !! DOMAIN
    = Some storage_collection.
Proof.
  intros Hhome. unfold async_setup. rewrite Hhome. simpl.
  split; [done|]. split; [done|]. split.
  - apply elem_of_app. right. by left.
  - apply lookup_insert_eq.
Qed.

End SetupFacts.

Section SetupExamples.
Import Zone Setup Fixtures.

Lemma reload_fetch_failure_keeps_namespace_witness :
  reload_service_handler load_by_name fetch_fails empty_hass
  = (Ok RNone, empty_hass).
Proof.
  apply (reload_fetch_failure_keeps_namespace load_by_name fetch_fails).
  reflexivity.
Defined.

(** C4, as the specification has it, fails on its last part: the
    handler ends a reload whose fetch failed as it ends one that went
    well, with [None]; nothing is raised to the caller. *)
Lemma reload_failure_not_surfaced :
  fetch_fails empty_hass = None
  ∧ (reload_service_handler load_by_name fetch_fails empty_hass).1 = Ok RNone
  ∧ (reload_service_handler load_by_name fetch_home empty_hass).1 = Ok RNone
  ∧ ∀ e, (reload_service_handler load_by_name fetch_fails empty_hass).1
         ≠ Raise e.
Proof. do 3 (split; [reflexivity|]). intros e. discriminate. Qed.

Lemma async_setup_existing_home_witness :
  async_setup load_by_name no_change no_change add_by_handle
    empty_hass [home_conf]
  = (true, loaded load_by_name no_change no_change empty_hass [home_conf])
  ∧ bus (async_setup load_by_name no_change no_change add_by_handle
           empty_hass [home_conf]).2 = []
  ∧ data (async_setup load_by_name no_change no_change add_by_handle
            empty_hass [home_conf]).2 = ∅
  ∧ CONF_NAME <$> (_config <$>
      entities (async_setup load_by_name no_change no_change add_by_handle
                  empty_hass [home_conf]).2 !! "zone.home") = Some "home".
Proof.
  destruct (async_setup_existing_home load_by_name no_change no_change
              add_by_handle empty_hass [home_conf]
              (set_entity_id "zone.home" (from_yaml home_conf)) eq_refl)
    as (Hrun & _ & Hbus & Hdata & _).
  split; [exact Hrun|]. split; [exact Hbus|]. split; [exact Hdata|].
  rewrite Hrun. reflexivity.
Defined.

Lemma core_config_updated_applies_witness :
  CONF_LATITUDE <$>
    (_config <$>
       entities (run_listener (core_config_updated "zone.home") moved_hass)
       !! "zone.home")
  = Some 53%Q
  ∧ length (written (run_listener (core_config_updated "zone.home")
                       moved_hass)) = 1.
Proof.
  destruct (core_config_updated_applies moved_hass "zone.home"
              (set_entity_id "zone.home" (__init__ (_home_conf empty_hass)))
              eq_refl) as [_ Hchanged].
  destruct (Hchanged eq_refl) as [Hentity Hwritten].
  rewrite Hentity, Hwritten. split; reflexivity.
Defined.

Lemma async_setup_synthesizes_home_witness :
  (async_setup load_by_name no_change no_change add_by_handle
     empty_hass []).1 = true
  ∧ bus (async_setup load_by_name no_change no_change add_by_handle
           empty_hass []).2
    = [(EVENT_CORE_CONFIG_UPDATE, core_config_updated "zone.home")]
  ∧ data (async_setup load_by_name no_change no_change add_by_handle
            empty_hass []).2 !! DOMAIN = Some storage_collection.
Proof.
  destruct (async_setup_synthesizes_home load_by_name no_change no_change
              add_by_handle empty_hass [] eq_refl)
    as (Hret & Hrun & _ & Hdata).
  split; [exact Hret|]. split; [|exact Hdata].
  rewrite Hrun. reflexivity.
Defined.

Example async_setup_without_home :
  bus (async_setup load_by_name no_change no_change add_by_handle
         empty_hass []).2
  = [(EVENT_CORE_CONFIG_UPDATE, core_config_updated "zone.home")]
  ∧ data (async_setup load_by_name no_change no_change add_by_handle
            empty_hass []).2 !! DOMAIN = Some storage_collection
  ∧ CONF_NAME <$> (_config <$>
      entities (async_setup load_by_name no_change no_change add_by_handle
                  empty_hass []).2 !! "zone.home") = Some "Home".
Proof. repeat split. Qed.

End SetupExamples.

(** ** More on the containment engine *)

Section MoreContainment.

Variable round : Q → Q.
Variable distance : Q → Q → Q → Q → option Q.

Lemma qualifies_in_zone (zone : State) (latitude longitude radius : Q) :
  state zone ≠ STATE_UNAVAILABLE →
  qualifiesb round distance latitude longitude radius zone =
  in_zone round distance zone latitude longitude radius.
Proof.
  intros Hstate. rewrite in_zone_available by done.
  unfold qualifiesb, within.
  destruct (zone_distance _ _ _ _) as [d|]; [|done].
  by destruct (ATTR_RADIUS (attributes zone)).
Qed.

Lemma candidate_in_zone (zone : State) (latitude longitude radius : Q) :
  is_candidate zone = true →
  qualifies round distance latitude longitude radius zone
  ↔ in_zone round distance zone latitude longitude radius = true.
Proof.
  intros [_ Hstate]%is_candidate_spec.
  by rewrite <- qualifiesb_spec, qualifies_in_zone.
Qed.

Lemma resolved_is_candidate (states : gmap string State)
    (latitude longitude radius : Q) (zone : State) :
  resolveActiveZone round distance (candidates states).*2
    latitude longitude radius
  = Some zone →
  zone ∈ (candidates states).*2
  ∧ qualifies round distance latitude longitude radius zone.
Proof.
  unfold resolveActiveZone. intros Hres.
  pose proof (resolve_best round distance latitude longitude radius
                (candidates states).*2 [] None) as Hbest.
  simpl in Hbest.
  destruct (foldl _ None _) as [[c m]|]; [|done].
  injection Hres as ->.
  destruct Hbest as (Hin & Hd & Hw & _).
  { intros z dz Hz. by apply elem_of_nil in Hz. }
  split; [done|]. by exists m.
Qed.

Lemma returned_in_zone (states : gmap string State)
    (latitude longitude radius : Q) (zone : State) :
  async_active_zone round distance states latitude longitude radius
  = Ok (Some zone) →
  ∃ entity_id,
    (entity_id, zone) ∈ candidates states
    ∧ in_zone round distance zone latitude longitude radius = true.
Proof.
  intros Hrun. apply active_zone_returns in Hrun. symmetry in Hrun.
  apply resolved_is_candidate in Hrun as [Hin Hq].
  apply list_elem_of_fmap in Hin as ([entity_id z] & -> & Hin).
  exists entity_id. split; [done|]. simpl in *.
  apply candidate_in_zone; [|done].
  apply elem_of_candidates in Hin as (_ & _ & Hp & Hs).
  by apply is_candidate_spec.
Qed.

(** X7: the zone [async_active_zone] returns is stored in the
    namespace under a handle of the zone domain, is not passive, and
    [in_zone] holds of it for the same point and radius. *)
Theorem active_zone_contains_point (states : gmap string State)
    (latitude longitude radius : Q) (zone : State) :
  async_active_zone round distance states latitude longitude radius
  = Ok (Some zone) →
  in_zone round distance zone latitude longitude radius = true
  ∧ truthy (ATTR_PASSIVE (attributes zone)) = false
  ∧ ∃ entity_id, states !! entity_id = Some zone
                 ∧ in_domain DOMAIN entity_id = true.
Proof.
  intros (entity_id & Hin & Hinside)%returned_in_zone.
  apply elem_of_candidates in Hin as (Hz & Hd & Hp & Hs).
  split; [done|]. split; [done|]. by exists entity_id.
Qed.

(** X8: in a namespace whose candidates carry a radius,
    [async_active_zone] returns [None] exactly when [in_zone] is false
    of every zone state that is not passive. *)
Theorem active_zone_none_iff (states : gmap string State)
    (latitude longitude radius : Q) :
  radius_defined states →
  async_active_zone round distance states latitude longitude radius = Ok None
  ↔ ∀ entity_id zone,
      states !! entity_id = Some zone →
      in_domain DOMAIN entity_id = true →
      truthy (ATTR_PASSIVE (attributes zone)) = false →
      in_zone round distance zone latitude longitude radius = false.
Proof.
  intros Hradius. rewrite active_zone_run by done.
  unfold resolveActiveZone. split.
  - intros [= Hnone] entity_id zone Hz Hd Hp.
    apply fmap_None, resolve_None in Hnone as [_ Hall].
    destruct (decide (state zone = STATE_UNAVAILABLE)) as [Hs|Hs].
    { by apply in_zone_unavailable. }
    apply not_true_is_false. intros Hin.
    apply (Hall zone).
    + apply (list_elem_of_fmap_2' snd _ (entity_id, zone)); [|done].
      by apply elem_of_candidates.
    + apply candidate_in_zone; [|done]. by apply is_candidate_spec.
  - intros Hall. f_equal. apply fmap_None, resolve_None. split; [done|].
    intros zone ([entity_id z] & -> & Hin)%list_elem_of_fmap Hq.
    apply elem_of_candidates in Hin as (Hz & Hd & Hp & Hs). simpl in *.
    apply candidate_in_zone in Hq; [|by apply is_candidate_spec].
    by rewrite (Hall entity_id z) in Hq.
Qed.

Lemma within_monotone (radius radius' : Q) (zone : State) (d : Q) :
  monotone round → (radius <= radius')%Q →
  within round radius zone d = true → within round radius' zone d = true.
Proof.
  unfold within, sub. intros Hmono Hle.
  destruct (ATTR_RADIUS (attributes zone)) as [zone_radius|]; [|done].
  rewrite !Qltb_lt. intros Hlt.
  apply Qle_lt_trans with (round (d - radius)); [|done].
  apply Hmono. lra.
Qed.

Lemma qualifies_monotone (latitude longitude radius radius' : Q)
    (zone : State) :
  monotone round → (radius <= radius')%Q →
  qualifies round distance latitude longitude radius zone →
  qualifies round distance latitude longitude radius' zone.
Proof.
  intros Hmono Hle (d & Hd & Hw). exists d. split; [done|].
  by eapply within_monotone.
Qed.

(** X9: a larger radius around the point never moves it out of a zone:
    [in_zone] stays true, and, in a namespace whose candidates carry a
    radius, [async_active_zone] still finds a zone.  The rounding of the
    difference keeps the order. *)
Theorem larger_radius_stays_inside (states : gmap string State)
    (zone : State) (latitude longitude radius radius' : Q) :
  monotone round →
  (radius <= radius')%Q →
  (in_zone round distance zone latitude longitude radius = true →
   in_zone round distance zone latitude longitude radius' = true)
  ∧ (radius_defined states →
     (∃ found,
        async_active_zone round distance states latitude longitude radius
        = Ok (Some found)) →
     ∃ found',
       async_active_zone round distance states latitude longitude radius'
       = Ok (Some found')).
Proof.
  intros Hmono Hle. split.
  - intros Hin.
    destruct (decide (state zone = STATE_UNAVAILABLE)) as [Hs|Hs].
    { by rewrite in_zone_unavailable in Hin. }
    rewrite <- qualifies_in_zone in * by done.
    apply qualifiesb_spec. apply qualifiesb_spec in Hin.
    by eapply qualifies_monotone.
  - intros Hradius [found Hrun].
    rewrite active_zone_run in * by done. injection Hrun as Hrun.
    destruct (resolveActiveZone round distance (candidates states).*2
                latitude longitude radius') as [found'|] eqn:Hres;
      [by exists found'|].
    unfold resolveActiveZone in Hres.
    apply fmap_None, resolve_None in Hres as [_ Hall].
    apply resolved_is_candidate in Hrun as [Hin Hq].
    destruct (Hall found Hin). by eapply qualifies_monotone.
Qed.

(** *** What the loop passes over *)

Lemma for_zones_states (states : gmap string State)
    (latitude longitude radius : Q) (ids : list string) :
  ∀ vars,
    (∀ entity_id, entity_id ∈ ids → is_Some (states !! entity_id)) →
    for_zones round distance states latitude longitude radius ids vars =
    for_states round distance latitude longitude radius
      (omap (λ entity_id, (entity_id,.) <$> states !! entity_id) ids).*2 vars.
Proof.
  induction ids as [|entity_id ids IH]; intros vars Hall; [done|].
  destruct (Hall entity_id) as [zone Hz]; [by left|].
  simpl. rewrite Hz. simpl.
  destruct (loop_body _ _ _ _ _ vars zone) as [vars'|e]; simpl; [|done].
  apply IH. intros i Hi. apply Hall. by right.
Qed.

Lemma for_states_candidates (latitude longitude radius : Q)
    (entries : list (string * State)) :
  ∀ vars,
    for_states round distance latitude longitude radius entries.*2 vars =
    for_states round distance latitude longitude radius
      (filter (λ entry, is_candidate entry.2 = true) entries).*2 vars.
Proof.
  induction entries as [|[entity_id zone] entries IH]; intros vars; [done|].
  rewrite filter_cons. simpl.
  destruct (is_candidate zone) eqn:Hc.
  - rewrite decide_True by done. simpl.
    destruct (loop_body _ _ _ _ _ vars zone) as [vars'|e]; simpl; [|done].
    apply IH.
  - rewrite decide_False by done.
    unfold loop_body at 1. rewrite skipped_candidate, Hc. simpl. apply IH.
Qed.

Lemma active_zone_candidates (states : gmap string State)
    (latitude longitude radius : Q) :
  async_active_zone round distance states latitude longitude radius =
  (vars ← for_states round distance latitude longitude radius
            (candidates states).*2 {| min_dist := None; closest := None |};
   Ok (closest vars)).
Proof.
  unfold async_active_zone.
  rewrite for_zones_states, for_states_candidates; [done|].
  intros entity_id Hin. by apply elem_of_sorted_ids in Hin as [? _].
Qed.

Lemma ascending_entries {A : Type} (l : list (string * A)) :
  StronglySorted handle_lt l.*1 →
  StronglySorted (λ e1 e2, handle_lt e1.1 e2.1) l.
Proof.
  induction l as [|e l IH]; intros Hs; [constructor|].
  apply StronglySorted_cons in Hs as [Hall Hs].
  constructor; [by apply IH|].
  apply Forall_forall. intros e' He'.
  eapply Forall_forall in Hall; [done|]. by apply list_elem_of_fmap_2.
Qed.

Lemma candidates_ext (states states' : gmap string State) :
  (∀ entry, entry ∈ candidates states ↔ entry ∈ candidates states') →
  candidates states = candidates states'.
Proof.
  intros Hsame.
  apply (StronglySorted_unique_strong (λ e1 e2, handle_lt e1.1 e2.1)).
  - intros e1 e2 _ _ H12 H21.
    pose proof (handle_lt_asym _ _ H12 H21) as Heq.
    rewrite Heq in H12. by apply handle_lt_irrefl in H12.
  - apply ascending_entries, candidates_ascending.
  - apply ascending_entries, candidates_ascending.
  - apply NoDup_Permutation; [| |done].
    + eapply NoDup_fmap_1, ascending_NoDup, candidates_ascending.
    + eapply NoDup_fmap_1, ascending_NoDup, candidates_ascending.
Qed.

(** X10: a state that the loop passes over (one outside the zone
    domain, a passive zone, an unavailable zone) has no part in the
    outcome of [async_active_zone]: writing it in place of nothing or of
    another such state, or removing it, changes neither the result nor
    whether the call raises. *)
Theorem passed_over_states_ignored (states : gmap string State)
    (entity_id : string) (st : State) (latitude longitude radius : Q) :
  passed_over entity_id st →
  (∀ old, states !! entity_id = Some old → passed_over entity_id old) →
  async_active_zone round distance (<[entity_id := st]> states)
    latitude longitude radius
  = async_active_zone round distance states latitude longitude radius
  ∧ async_active_zone round distance (delete entity_id states)
      latitude longitude radius
    = async_active_zone round distance states latitude longitude radius.
Proof.
  intros Hnew Hold.
  assert (∀ z, in_domain DOMAIN entity_id = true →
               truthy (ATTR_PASSIVE (attributes z)) = false →
               state z ≠ STATE_UNAVAILABLE → ¬ passed_over entity_id z)
    as Hcand.
  { intros z Hd Hp Hs [Hd'|Hc]; [congruence|].
    assert (is_candidate z = true) by (by apply is_candidate_spec).
    congruence. }
  rewrite !active_zone_candidates.
  split; f_equal; f_equal; f_equal; apply candidates_ext;
    intros [i z]; rewrite !elem_of_candidates.
  - destruct (decide (i = entity_id)) as [->|Hne].
    + rewrite lookup_insert_eq. split.
      * intros ([= <-] & Hd & Hp & Hs). by destruct (Hcand st).
      * intros (Hz & Hd & Hp & Hs). destruct (Hcand z); auto.
    + by rewrite lookup_insert_ne.
  - destruct (decide (i = entity_id)) as [->|Hne].
    + rewrite lookup_delete_eq. split; [by intros [? _]|].
      intros (Hz & Hd & Hp & Hs). destruct (Hcand z); auto.
    + by rewrite lookup_delete_ne.
Qed.

(** X11: when a single candidate qualifies, by the comparison of the
    floats, it is the active zone. *)
Theorem sole_qualifier_is_active (states : gmap string State)
    (latitude longitude radius : Q) (entity_id : string) (zone : State) :
  radius_defined states →
  (entity_id, zone) ∈ candidates states →
  qualifies round distance latitude longitude radius zone →
  (∀ entry, entry ∈ candidates states →
            qualifies round distance latitude longitude radius entry.2 →
            entry = (entity_id, zone)) →
  async_active_zone round distance states latitude longitude radius
  = Ok (Some zone).
Proof.
  intros Hradius Hin Hq Hsole. rewrite active_zone_run by done. f_equal.
  destruct (resolveActiveZone _ _ _ _ _) as [found|] eqn:Hres.
  - apply resolved_is_candidate in Hres as [Hfound Hqf].
    apply list_elem_of_fmap in Hfound as (entry & -> & Hentry).
    by rewrite (Hsole entry Hentry Hqf).
  - unfold resolveActiveZone in Hres.
    apply fmap_None, resolve_None in Hres as [_ Hall].
    destruct (Hall zone); [|done].
    by apply (list_elem_of_fmap_2' snd _ (entity_id, zone)).
Qed.

(** X12: with a distance that is never negative, a zone whose radius
    and the radius around the point add up to nothing or less contains
    no point, and is never the active zone: so it is with a zone of
    radius [0] or less and an exact position.  The rounding of the
    difference keeps the order, and the radius of the zone is a float. *)
Theorem nonpositive_radius_never_inside (states : gmap string State)
    (zone : State) (latitude longitude radius zone_radius : Q) :
  monotone round →
  distance_nonnegative distance →
  ATTR_RADIUS (attributes zone) = Some zone_radius →
  is_float round zone_radius →
  (zone_radius + radius <= 0)%Q →
  in_zone round distance zone latitude longitude radius = false
  ∧ async_active_zone round distance states latitude longitude radius
    ≠ Ok (Some zone).
Proof.
  intros Hmono Hnonneg Hzr Hfloat Hsum.
  assert (in_zone round distance zone latitude longitude radius = false)
    as Hout.
  { destruct (decide (state zone = STATE_UNAVAILABLE)) as [Hs|Hs].
    { by apply in_zone_unavailable. }
    rewrite in_zone_available by done. rewrite Hzr.
    destruct (zone_distance _ _ _ _) as [d|] eqn:Hd; [|done].
    apply Hnonneg in Hd. apply Qltb_ge.
    apply sub_not_below; [done|done|]. lra. }
  split; [done|]. intros Hrun.
  apply returned_in_zone in Hrun as (entity_id & _ & Hin). congruence.
Qed.

End MoreContainment.

Section GeneratedStates.
Import Zone.

Variable round : Q → Q.
Variable distance : Q → Q → Q → Q → option Q.

(** X13: on a namespace whose zone states carry the attributes that
    [_generate_attrs] makes, [async_active_zone] never raises, and the
    definition behind the zone it returns is not passive. *)
Theorem generated_attributes_resolve (states : gmap string State)
    (latitude longitude radius : Q) :
  (∀ entity_id st,
     states !! entity_id = Some st → in_domain DOMAIN entity_id = true →
     ∃ self, Some (attributes st) = _attrs (_generate_attrs self)) →
  ∃ result,
    async_active_zone round distance states latitude longitude radius
    = Ok result
    ∧ ∀ zone, result = Some zone →
              ∃ self, Some (attributes zone) = _attrs (_generate_attrs self)
                      ∧ CONF_PASSIVE (_config self) = false.
Proof.
  intros Hgen.
  assert (radius_defined states) as Hradius.
  { apply Forall_forall. intros [entity_id st] Hin.
    apply elem_of_candidates in Hin as (Hst & Hd & _).
    destruct (Hgen entity_id st Hst Hd) as [self Hself].
    injection Hself as Hself. simpl. rewrite Hself. by eexists. }
  eexists. split; [by apply active_zone_run|].
  intros zone Hres.
  assert (async_active_zone round distance states latitude longitude radius
          = Ok (Some zone)) as Hrun.
  { rewrite active_zone_run by done. by rewrite Hres. }
  apply returned_in_zone in Hrun as (entity_id & Hin & _).
  apply elem_of_candidates in Hin as (Hst & Hd & Hp & _).
  destruct (Hgen entity_id zone Hst Hd) as [self Hself].
  exists self. split; [done|].
  injection Hself as Hself. rewrite Hself in Hp. simpl in Hp. done.
Qed.

End GeneratedStates.

(** ** More on the zone entity *)

Section MoreZoneEntity.
Import Zone.

Lemma handle_object_id (self : Zone) (domain object_id : string) :
  entity_id self = Some (domain +:+ "." +:+ object_id) →
  contains "." domain = false → domain ≠ "" → object_id ≠ "" →
  object_id_of self = Ok object_id.
Proof.
  intros Hhandle Hdot Hd Ho. unfold object_id_of. rewrite Hhandle.
  by rewrite split_entity_id_handle.
Qed.

Lemma set_persons_same (self : Zone) :
  set_persons (_persons_in_zone self) self = self.
Proof. by destruct self. Qed.

Lemma set_persons_twice (persons persons' : gset string) (self : Zone) :
  set_persons persons' (set_persons persons self) = set_persons persons' self.
Proof. done. Qed.

(** X14: a second delivery of the same event changes nothing and
    republishes nothing. *)
Theorem listener_idempotent (self : Zone) (evt : Event)
    (domain object_id : string) :
  entity_id self = Some (domain +:+ "." +:+ object_id) →
  contains "." domain = false → domain ≠ "" → object_id ≠ "" →
  ∃ self' written,
    _person_state_change_listener self evt = Ok (self', written)
    ∧ _person_state_change_listener self' evt = Ok (self', []).
Proof.
  intros Hhandle Hdot Hd Ho.
  pose proof (handle_object_id _ _ _ Hhandle Hdot Hd Ho) as Hid.
  destruct (listener_result self evt object_id Hid) as (persons & Hrun & Hp).
  eexists _, _. split; [exact Hrun|].
  destruct (listener_result (set_persons persons self) evt object_id)
    as (persons' & Hrun' & Hp'); [done|].
  simpl in Hp'.
  assert (persons' = persons) as ->.
  { rewrite Hp', Hp. destruct (state_is (data_new_state evt) object_id).
    - by rewrite (assoc_L (∪)), union_idemp_L.
    - by rewrite difference_difference_l_L, union_idemp_L. }
  rewrite Hrun'. simpl. rewrite bool_decide_eq_false_2 by (by intros ?).
  done.
Qed.

(** X15: an occupant who was not in the zone, enters it and leaves it
    again, leaves the entity as it was; the zone is republished twice,
    with one occupant more and then with the count it had. *)
Theorem enter_then_leave (self : Zone) (enters leaves : Event)
    (domain object_id : string) :
  entity_id self = Some (domain +:+ "." +:+ object_id) →
  contains "." domain = false → domain ≠ "" → object_id ≠ "" →
  data_entity_id leaves = data_entity_id enters →
  reports enters object_id → ¬ reports leaves object_id →
  data_entity_id enters ∉ _persons_in_zone self →
  ∃ inside first second,
    _person_state_change_listener self enters = Ok (inside, [first])
    ∧ written_state first = S (size (_persons_in_zone self))
    ∧ _person_state_change_listener inside leaves = Ok (self, [second])
    ∧ written_state second = size (_persons_in_zone self).
Proof.
  intros Hhandle Hdot Hd Ho Hsame Hin Hout Hnew.
  pose proof (handle_object_id _ _ _ Hhandle Hdot Hd Ho) as Hid.
  apply state_is_reports in Hin.
  assert (state_is (data_new_state leaves) object_id = false) as Hout'.
  { apply not_true_is_false. by rewrite state_is_reports. }
  destruct (listener_result self enters object_id Hid)
    as (persons & Hrun & Hp).
  rewrite Hin in Hp.
  assert (size persons = S (size (_persons_in_zone self))) as Hsize.
  { rewrite Hp, size_union by (by apply disjoint_singleton_l).
    by rewrite size_singleton. }
  rewrite bool_decide_eq_true_2 in Hrun by lia.
  destruct (listener_result (set_persons persons self) leaves object_id)
    as (persons' & Hrun' & Hp'); [done|].
  simpl in Hp'. rewrite Hout', Hsame in Hp'.
  assert (persons' = _persons_in_zone self) as ->.
  { rewrite Hp', Hp. rewrite difference_union_distr_l_L, difference_diag_L.
    rewrite union_empty_l_L. apply difference_disjoint_L.
    by apply disjoint_singleton_r. }
  rewrite set_persons_twice, set_persons_same in Hrun'. simpl in Hrun'.
  rewrite bool_decide_eq_true_2 in Hrun' by lia.
  eexists _, _, _. split; [exact Hrun|]. split; [exact Hsize|].
  split; [exact Hrun'|done].
Qed.

(** X16: an event never touches an occupant other than its own, and
    changes the count by one at most, with one republication at most. *)
Theorem listener_touches_one (self : Zone) (evt : Event)
    (domain object_id : string) :
  entity_id self = Some (domain +:+ "." +:+ object_id) →
  contains "." domain = false → domain ≠ "" → object_id ≠ "" →
  ∃ self' written,
    _person_state_change_listener self evt = Ok (self', written)
    ∧ (∀ other, other ≠ data_entity_id evt →
                other ∈ _persons_in_zone self'
                ↔ other ∈ _persons_in_zone self)
    ∧ (size (_persons_in_zone self') ≤ S (size (_persons_in_zone self)))%nat
    ∧ (size (_persons_in_zone self) ≤ S (size (_persons_in_zone self')))%nat
    ∧ (length written ≤ 1)%nat.
Proof.
  intros Hhandle Hdot Hd Ho.
  pose proof (handle_object_id _ _ _ Hhandle Hdot Hd Ho) as Hid.
  destruct (listener_result self evt object_id Hid) as (persons & Hrun & Hp).
  eexists _, _. split; [exact Hrun|]. simpl.
  split; [|split; [|split]].
  - intros other Hother. rewrite Hp.
    destruct (state_is (data_new_state evt) object_id).
    + rewrite elem_of_union, elem_of_singleton. tauto.
    + rewrite elem_of_difference, elem_of_singleton. tauto.
  - rewrite Hp. destruct (state_is (data_new_state evt) object_id).
    + rewrite size_union_alt, size_singleton.
      pose proof (subseteq_size
                    (_persons_in_zone self ∖ {[data_entity_id evt]})
                    (_persons_in_zone self)) as Hsub.
      specialize (Hsub (subseteq_difference_l _ _ _ (reflexivity _))). lia.
    + pose proof (subseteq_size
                    (_persons_in_zone self ∖ {[data_entity_id evt]})
                    (_persons_in_zone self)) as Hsub.
      specialize (Hsub (subseteq_difference_l _ _ _ (reflexivity _))). lia.
  - rewrite Hp. destruct (state_is (data_new_state evt) object_id).
    + pose proof (subseteq_size (_persons_in_zone self)
                    ({[data_entity_id evt]} ∪ _persons_in_zone self)
                    (union_subseteq_r _ _)) as Hsub.
      lia.
    + pose proof (size_union_alt {[data_entity_id evt]}
                    (_persons_in_zone self)) as Halt.
      rewrite size_singleton in Halt.
      pose proof (subseteq_size (_persons_in_zone self)
                    ({[data_entity_id evt]} ∪ _persons_in_zone self)
                    (union_subseteq_r _ _)) as Hsub.
      lia.
  - case_bool_decide; simpl; lia.
Qed.

Lemma config_eqb_refl (config : Config) : config_eqb config config = true.
Proof.
  unfold config_eqb.
  by rewrite !bool_decide_eq_true_2, !Qeq_bool_refl by done.
Qed.

(** X17: handing [async_update_config] the same definition again is a
    no-op: the entity stays as the first call left it and nothing more
    is republished. *)
Theorem async_update_config_idempotent (self : Zone) (config : Config) :
  async_update_config (async_update_config self config).1.2 config
  = (RNone, (async_update_config self config).1.2, []).
Proof.
  destruct (config_eqb (_config self) config) eqn:Heq.
  - rewrite !(async_update_config_same self config Heq). simpl.
    by rewrite (async_update_config_same self config Heq).
  - rewrite !(async_update_config_changed self config Heq). simpl.
    rewrite async_update_config_same; [done|]. apply config_eqb_refl.
Qed.

End MoreZoneEntity.

(** ** More on the stored definitions *)

Section MoreValidation.
Import Zone Storage Stored.

Variable cv_icon : string → result string.

Lemma cv_latitude_returns (v v' : Q) :
  cv_latitude v = Ok v' → v' = v ∧ valid_latitude v.
Proof.
  destruct (valid_latitude_dec v) as [Hv|Hv].
  - rewrite cv_latitude_Ok by done. by intros [= <-].
  - by rewrite cv_latitude_Raise.
Qed.

Lemma cv_longitude_returns (v v' : Q) :
  cv_longitude v = Ok v' → v' = v ∧ valid_longitude v.
Proof.
  destruct (valid_longitude_dec v) as [Hv|Hv].
  - rewrite cv_longitude_Ok by done. by intros [= <-].
  - by rewrite cv_longitude_Raise.
Qed.

Lemma Optional_returns {A B : Type} (v : option A) (f : A → result B)
    (r : option B) :
  Optional v f = Ok r →
  match v with
  | Some a => ∃ b, f a = Ok b ∧ r = Some b
  | None => r = None
  end.
Proof.
  unfold Optional. destruct v as [a|]; [|by intros [= <-]].
  intros (b & Hb & [= <-])%bind_Ok. by exists b.
Qed.

Lemma merge_merge (data : Config) (update_data : Fields) :
  merge (merge data update_data) update_data = merge data update_data.
Proof.
  unfold merge. simpl.
  by destruct (name update_data), (latitude update_data),
    (longitude update_data), (radius update_data), (passive update_data),
    (icon update_data).
Qed.

(** X5: an update that is accepted keeps the identifier of the record,
    and applying it once more changes nothing; an update that carries
    no field is accepted and returns the record as it is. *)
Theorem update_data_idempotent (data : Config) (update_data : Fields) :
  (∀ updated,
     _update_data cv_icon data update_data = Ok updated →
     CONF_ID updated = CONF_ID data
     ∧ _update_data cv_icon updated update_data = Ok updated)
  ∧ _update_data cv_icon data no_fields = Ok data.
Proof.
  split.
  - unfold _update_data. intros updated (u & Hu & [= <-])%bind_Ok.
    split; [done|]. rewrite Hu. simpl. by rewrite merge_merge.
  - by destruct data.
Qed.

(** X18: validation hands on coordinates within the valid ranges: a
    definition that is accepted on create has them, under the name the
    request carries and with no identifier yet, and an update of a
    record that has them yields a record that has them. *)
Theorem validated_coordinates (data : Fields) (stored : Config) :
  (∀ item,
     _process_create_data cv_icon data = Ok item →
     valid_coordinates item
     ∧ name data = Some (CONF_NAME item)
     ∧ CONF_ID item = None)
  ∧ (∀ updated,
       _update_data cv_icon stored data = Ok updated →
       valid_coordinates stored → valid_coordinates updated).
Proof.
  split.
  - unfold _process_create_data, CREATE_SCHEMA, Required, cv_string.
    intros item Hrun.
    destruct (name data) as [n|]; [|done]. simpl in Hrun.
    destruct (latitude data) as [lat|]; [|done].
    apply bind_Ok in Hrun as (lat' & [-> Hlat]%cv_latitude_returns & Hrun).
    destruct (longitude data) as [lon|]; [|done].
    apply bind_Ok in Hrun as (lon' & [-> Hlon]%cv_longitude_returns & Hrun).
    apply bind_Ok in Hrun as (i & _ & Hrun).
    injection Hrun as <-. unfold valid_coordinates. simpl. done.
  - unfold _update_data, UPDATE_SCHEMA.
    intros updated (u & Hu & [= <-])%bind_Ok [Hlat Hlon].
    apply bind_Ok in Hu as (n & _ & Hu).
    apply bind_Ok in Hu as (lat & Hlat'%Optional_returns & Hu).
    apply bind_Ok in Hu as (lon & Hlon'%Optional_returns & Hu).
    apply bind_Ok in Hu as (r & _ & Hu).
    apply bind_Ok in Hu as (p & _ & Hu).
    apply bind_Ok in Hu as (i & _ & Hu).
    injection Hu as <-. unfold valid_coordinates, merge. simpl. split.
    + destruct (latitude data) as [v|].
      * destruct Hlat' as (b & [-> ?]%cv_latitude_returns & ->). done.
      * by rewrite Hlat'.
    + destruct (longitude data) as [v|].
      * destruct Hlon' as (b & [-> ?]%cv_longitude_returns & ->). done.
      * by rewrite Hlon'.
Qed.

End MoreValidation.

(** ** Config entries *)

Section SetupEntryFacts.
Import Zone Storage Entry.

Variable cv_icon : string → result string.
Variable generate_id : gmap string Config → string → string.
Variable async_add_entities : list Zone → Setup.Hass → Setup.Hass.



End SetupEntryFacts.

(** ** More on setup *)

Section MoreSetup.
Import Zone Storage Setup.

Variable yaml_collection_async_load : list Config → Hass → Hass.
Variable storage_collection_async_load : Hass → Hass.
Variable websocket_async_setup : Hass → Hass.
Variable async_add_entities : list Zone → Hass → Hass.
Variable cv_icon : string → result string.
Variable generate_id : gmap string Config → string → string.

(** X20: when [async_setup] found an entity [zone.home] and returned
    early, and nothing else put the storage collection in [hass.data],
    [async_setup_entry] raises [KeyError] for every config entry and
    leaves everything as it was. *)
Theorem async_setup_entry_after_early_return (hass : Hass)
    (config : list Config) (zone : Zone) (items : gmap string Config)
    (tasks : list Entry.Task) (config_entry : Entry.ConfigEntry) :
  get_entity
    (loaded yaml_collection_async_load storage_collection_async_load
       websocket_async_setup hass config) "zone.home" = Some zone →
  data
    (loaded yaml_collection_async_load storage_collection_async_load
       websocket_async_setup hass config) !! DOMAIN = None →
  Entry.async_setup_entry cv_icon generate_id async_add_entities
    {| Entry.hass :=
         (async_setup yaml_collection_async_load
            storage_collection_async_load websocket_async_setup
            async_add_entities hass config).2;
       Entry.items := items;
       Entry.tasks := tasks |}
    config_entry
  = (Raise (KeyError DOMAIN),
     {| Entry.hass :=
          (async_setup yaml_collection_async_load
             storage_collection_async_load websocket_async_setup
             async_add_entities hass config).2;
        Entry.items := items;
        Entry.tasks := tasks |}).
Proof.
  intros Hhome Hdata. unfold async_setup. rewrite Hhome.
  unfold Entry.async_setup_entry. cbn [snd Entry.hass]. by rewrite Hdata.
Qed.

Lemma listeners_of_other_events (event_type : string)
    (listeners : list (string * Listener)) :
  ∀ hass,
    Forall (λ entry, entry.1 ≠ event_type) listeners →
    foldl (λ hass '(event_type', listener),
             if bool_decide (event_type' = event_type)
             then run_listener listener hass
             else hass)
          hass listeners = hass.
Proof.
  induction listeners as [|[t l] listeners IH]; intros hass Hall; [done|].
  apply Forall_cons in Hall as [Ht Hall]. simpl in *.
  rewrite bool_decide_eq_false_2 by done. by apply IH.
Qed.

(** X21: after a setup that made the home zone, a change of the core
    configuration reaches it: once the update event is fired, the
    definition of the home zone is the one [_home_conf] makes from the
    new configuration.  It is assumed of the collaborators that the
    loads registered no listener for the event, and that adding the
    entities makes the home zone live and registers no listener. *)
Theorem core_config_reaches_home (hass : Hass) (config : list Config)
    (config' : CoreConfig) (home : Zone) :
  get_entity
    (loaded yaml_collection_async_load storage_collection_async_load
       websocket_async_setup hass config) "zone.home" = None →
  Forall (λ entry, entry.1 ≠ EVENT_CORE_CONFIG_UPDATE)
    (bus (loaded yaml_collection_async_load storage_collection_async_load
            websocket_async_setup hass config)) →
  (∀ zones h, bus (async_add_entities zones h) = bus h) →
  entities
    (async_setup yaml_collection_async_load storage_collection_async_load
       websocket_async_setup async_add_entities hass config).2
  !! ENTITY_ID_HOME = Some home →
  ∃ home',
    entities
      (async_fire EVENT_CORE_CONFIG_UPDATE
         (set_core_config config'
            (async_setup yaml_collection_async_load
               storage_collection_async_load websocket_async_setup
               async_add_entities hass config).2))
    !! ENTITY_ID_HOME = Some home'
    ∧ config_eqb (_config home')
        {| CONF_NAME := location_name config';
           CONF_LATITUDE := latitude config';
           CONF_LONGITUDE := longitude config';
           CONF_RADIUS := DEFAULT_RADIUS;
           CONF_PASSIVE := false;
           CONF_ICON := Some ICON_HOME;
           CONF_ID := None |} = true
    ∧ _persons_in_zone home' = _persons_in_zone home.
Proof.
  intros Hhome Hbus Hadd. unfold async_setup. rewrite Hhome. simpl.
  intros Hlive. unfold async_fire. simpl. rewrite Hadd.
  rewrite foldl_app. simpl.
  rewrite listeners_of_other_events by done.
  unfold run_listener. simpl. rewrite Hlive.
  unfold _home_conf. simpl.
  match goal with
  | |- context [async_update_config home ?c] =>
      destruct (config_eqb (_config home) c) eqn:Heq;
      [rewrite (async_update_config_same home c Heq)
      |rewrite (async_update_config_changed home c Heq)]
  end; simpl; rewrite lookup_insert_eq; eexists; (split; [done|]).
  - done.
  - split; [apply config_eqb_refl|done].
Qed.

End MoreSetup.

(** ** The configuration schema *)

Section SchemaFacts.
Import Zone Storage Schema.

Variable cv_icon : string → result string.
Variable ensure_list : value → list item.

Lemma len_0 (d : Fields) : len d = 0 → name d = None.
Proof. unfold len. destruct (name d); [simpl; lia|done]. Qed.

Lemma each_Forall2 (l : list item) (confs : list Config) :
  each cv_icon l = Ok confs
  ↔ Forall2 (λ v conf, Schema_CREATE_FIELDS cv_icon v = Ok conf) l confs.
Proof.
  revert confs. induction l as [|v l IH]; intros confs; simpl.
  - split; [intros [= <-]; constructor|by intros ->%Forall2_nil_inv_l].
  - split.
    + intros (conf & Hconf & Hrest)%bind_Ok.
      apply bind_Ok in Hrest as (rest & Hrest & [= <-]).
      constructor; [done|by apply IH].
    + intros (conf & rest & Hconf & Hrest & ->)%Forall2_cons_inv_l.
      apply IH in Hrest. by rewrite Hconf, Hrest.
Qed.

(** X22: an empty mapping under the key of the domain is a valid
    configuration with no zone, whatever [cv.ensure_list] makes of it;
    a mapping that is not empty is valid only as a definition. *)
Theorem empty_mapping_is_no_zone (d : Fields) :
  (len d = 0 →
   ensure_list (VDict d) = [IDict d] →
   CONFIG_SCHEMA cv_icon ensure_list (Some (VDict d)) = Ok [])
  ∧ (len d = 0 →
     ∃ confs, CONFIG_SCHEMA cv_icon ensure_list (Some (VDict d)) = Ok confs)
  ∧ (len d ≠ 0 →
     ∀ confs,
       CONFIG_SCHEMA cv_icon ensure_list (Some (VDict d)) = Ok confs →
       each cv_icon (ensure_list (VDict d)) = Ok confs).
Proof.
  unfold CONFIG_SCHEMA, Any, All, empty_value. simpl.
  split; [|split].
  - intros Hlen ->. simpl.
    unfold CREATE_SCHEMA, Required. rewrite (len_0 d Hlen). simpl.
    by rewrite bool_decide_eq_true_2.
  - intros Hlen. rewrite bool_decide_eq_true_2 by done.
    destruct (each cv_icon (ensure_list (VDict d))); eauto.
  - intros Hlen confs. rewrite bool_decide_eq_false_2 by done.
    by destruct (each cv_icon (ensure_list (VDict d))).
Qed.

(** X23: a list of definitions is accepted as a whole or not at all:
    when [cv.ensure_list] leaves a list as it is, the configuration is
    valid exactly when every element is a mapping that the create schema
    accepts, and it yields their definitions, one for each, in order;
    without the key of the domain there is no zone. *)
Theorem config_list_all_or_nothing (l : list item) (confs : list Config) :
  (∀ l', ensure_list (VList l') = l') →
  (CONFIG_SCHEMA cv_icon ensure_list (Some (VList l)) = Ok confs
   ↔ Forall2 (λ v conf,
                ∃ d, v = IDict d ∧ _process_create_data cv_icon d = Ok conf)
             l confs)
  ∧ CONFIG_SCHEMA cv_icon ensure_list None = Ok [].
Proof.
  intros Hlist. unfold CONFIG_SCHEMA, Any, All, empty_value. simpl.
  rewrite !Hlist. split; [|done].
  assert (each cv_icon l = Ok confs
          ↔ Forall2 (λ v conf,
                       ∃ d, v = IDict d
                            ∧ _process_create_data cv_icon d = Ok conf)
                    l confs) as Heach.
  { rewrite each_Forall2.
    split; intros Hall; (eapply Forall2_impl; [exact Hall|]).
    - intros [d|] conf Hv; [by exists d|done].
    - by intros v conf (d & -> & Hd). }
  rewrite <- Heach. by destruct (each cv_icon l).
Qed.

End SchemaFacts.

(** ** The added properties on examples *)

Section MoreExamples.
Import Zone Storage Setup Fixtures Examples.
Local Open Scope Q_scope.

Lemma taxicab_nonnegative : distance_nonnegative taxicab.
Proof.
  intros lat1 lon1 lat2 lon2 d Hd. unfold taxicab in Hd.
  destruct (Qle_bool (-90) lat1 && Qle_bool lat1 90); [|done].
  injection Hd as <-.
  change (0 <= Qabs (lat1 - lat2) + Qabs (lon1 - lon2)).
  pose proof (Qabs_nonneg (lat1 - lat2)) as Hlat.
  pose proof (Qabs_nonneg (lon1 - lon2)) as Hlon.
  revert Hlat Hlon.
  generalize (Qabs (lat1 - lat2)), (Qabs (lon1 - lon2)).
  intros a b Ha Hb. lra.
Qed.

Lemma add_by_handle_bus (zones : list Zone) :
  ∀ hass, bus (add_by_handle zones hass) = bus hass.
Proof.
  unfold add_by_handle.
  induction zones as [|zone zones IH]; intros hass; [done|].
  simpl. rewrite IH. by destruct (Zone.entity_id zone).
Qed.

Lemma active_zone_contains_point_witness :
  in_zone Binary64.round taxicab office 40 (-75) 0 = true
  ∧ truthy (ATTR_PASSIVE (attributes office)) = false
  ∧ ∃ entity_id, two_zones !! entity_id = Some office
                 ∧ in_domain DOMAIN entity_id = true.
Proof.
  apply (active_zone_contains_point Binary64.round taxicab two_zones
           40 (-75) 0 office).
  vm_compute. reflexivity.
Defined.

Lemma active_zone_none_iff_witness :
  async_active_zone Binary64.round taxicab two_zones 40 100 0 = Ok None
  ↔ ∀ entity_id zone,
      two_zones !! entity_id = Some zone →
      in_domain DOMAIN entity_id = true →
      truthy (ATTR_PASSIVE (attributes zone)) = false →
      in_zone Binary64.round taxicab zone 40 100 0 = false.
Proof.
  apply (active_zone_none_iff Binary64.round taxicab two_zones 40 100 0).
  vm_compute. repeat constructor; eauto.
Defined.

Lemma exact_monotone : monotone exact.
Proof. by intros x y Hle. Qed.

Lemma larger_radius_stays_inside_witness :
  (in_zone exact taxicab office 40 (-26) 0 = true →
   in_zone exact taxicab office 40 (-26) 10 = true)
  ∧ (radius_defined two_zones →
     (∃ found, async_active_zone exact taxicab two_zones 40 (-26) 0
               = Ok (Some found)) →
     ∃ found', async_active_zone exact taxicab two_zones 40 (-26) 10
               = Ok (Some found')).
Proof.
  apply (larger_radius_stays_inside exact taxicab two_zones office
           40 (-26) 0 10).
  - exact exact_monotone.
  - unfold Qle. simpl. lia.
Defined.

Lemma passed_over_states_ignored_witness :
  async_active_zone Binary64.round taxicab
    (<["zone.down" := down_zone]> two_zones) 40 (-75) 0
  = async_active_zone Binary64.round taxicab two_zones 40 (-75) 0
  ∧ async_active_zone Binary64.round taxicab (delete "zone.down" two_zones)
      40 (-75) 0
    = async_active_zone Binary64.round taxicab two_zones 40 (-75) 0.
Proof.
  apply (passed_over_states_ignored Binary64.round taxicab two_zones
           "zone.down" down_zone).
  - right. reflexivity.
  - intros old Hold. vm_compute in Hold. discriminate.
Defined.

Lemma sole_qualifier_is_active_witness :
  async_active_zone Binary64.round taxicab office_and_far 40 (-75) 0
  = Ok (Some office).
Proof.
  apply (sole_qualifier_is_active Binary64.round taxicab office_and_far
           40 (-75) 0 "zone.office" office).
  - vm_compute. repeat constructor; eauto.
  - apply list_elem_of_In. vm_compute. auto.
  - exists 0. split; reflexivity.
  - intros entry Hin Hq. apply list_elem_of_In in Hin. vm_compute in Hin.
    destruct Hin as [<-|[<-|[]]]; [|reflexivity].
    destruct Hq as (d & Hd & Hw). vm_compute in Hd.
    injection Hd as <-. vm_compute in Hw. discriminate.
Defined.

Lemma nonpositive_radius_never_inside_witness :
  in_zone exact taxicab pit_zone 40 (-75) 0 = false
  ∧ async_active_zone exact taxicab {[ "zone.pit" := pit_zone ]} 40 (-75) 0
    ≠ Ok (Some pit_zone).
Proof.
  apply (nonpositive_radius_never_inside exact taxicab
           {[ "zone.pit" := pit_zone ]} pit_zone 40 (-75) 0 (-5)).
  - exact exact_monotone.
  - exact taxicab_nonnegative.
  - reflexivity.
  - reflexivity.
  - unfold Qle. simpl. lia.
Defined.

Lemma generated_attributes_resolve_witness :
  ∃ result,
    async_active_zone Binary64.round taxicab
      {[ "zone.office" := published_office ]} 40 (-75) 0 = Ok result
    ∧ ∀ zone, result = Some zone →
              ∃ self, Some (attributes zone) = _attrs (_generate_attrs self)
                      ∧ CONF_PASSIVE (_config self) = false.
Proof.
  apply (generated_attributes_resolve Binary64.round taxicab
           {[ "zone.office" := published_office ]} 40 (-75) 0).
  intros entity_id st Hst _.
  apply lookup_singleton_Some in Hst as [_ <-].
  exists office_zone. reflexivity.
Defined.

Lemma listener_idempotent_witness :
  ∃ self' written,
    _person_state_change_listener office_zone arrives = Ok (self', written)
    ∧ _person_state_change_listener self' arrives = Ok (self', []).
Proof.
  apply (listener_idempotent office_zone arrives "zone" "office");
    [reflexivity|reflexivity|discriminate|discriminate].
Defined.

Lemma enter_then_leave_witness :
  ∃ inside first second,
    _person_state_change_listener office_zone arrives = Ok (inside, [first])
    ∧ written_state first = S (size (_persons_in_zone office_zone))
    ∧ _person_state_change_listener inside leaves
      = Ok (office_zone, [second])
    ∧ written_state second = size (_persons_in_zone office_zone).
Proof.
  apply (enter_then_leave office_zone arrives leaves "zone" "office");
    [reflexivity|reflexivity|discriminate|discriminate|reflexivity| | |].
  - exists person_state. split; reflexivity.
  - intros (st & Hst & _). discriminate.
  - apply not_elem_of_empty.
Defined.

Lemma listener_touches_one_witness :
  ∃ self' written,
    _person_state_change_listener office_zone arrives = Ok (self', written)
    ∧ (∀ other, other ≠ data_entity_id arrives →
                other ∈ _persons_in_zone self'
                ↔ other ∈ _persons_in_zone office_zone)
    ∧ (size (_persons_in_zone self')
       ≤ S (size (_persons_in_zone office_zone)))%nat
    ∧ (size (_persons_in_zone office_zone)
       ≤ S (size (_persons_in_zone self')))%nat
    ∧ (length written ≤ 1)%nat.
Proof.
  apply (listener_touches_one office_zone arrives "zone" "office");
    [reflexivity|reflexivity|discriminate|discriminate].
Defined.


Lemma async_setup_entry_after_early_return_witness :
  Entry.async_setup_entry prefixed_icon suggested add_by_handle early_world
    office_entry
  = (Raise (KeyError DOMAIN), early_world).
Proof.
  apply (async_setup_entry_after_early_return load_by_name no_change
           no_change add_by_handle prefixed_icon suggested empty_hass
           [home_conf] (set_entity_id "zone.home" (from_yaml home_conf))
           ∅ [] office_entry);
    reflexivity.
Defined.

Lemma core_config_reaches_home_witness :
  ∃ home',
    entities
      (async_fire EVENT_CORE_CONFIG_UPDATE
         (set_core_config north
            (async_setup load_by_name no_change no_change add_by_handle
               empty_hass []).2))
    !! ENTITY_ID_HOME = Some home'
    ∧ config_eqb (_config home')
        {| CONF_NAME := location_name north;
           CONF_LATITUDE := latitude north;
           CONF_LONGITUDE := longitude north;
           CONF_RADIUS := DEFAULT_RADIUS;
           CONF_PASSIVE := false;
           CONF_ICON := Some ICON_HOME;
           CONF_ID := None |} = true
    ∧ _persons_in_zone home' = ∅.
Proof.
  apply (core_config_reaches_home load_by_name no_change no_change
           add_by_handle empty_hass [] north
           (set_entity_id ENTITY_ID_HOME (__init__ (_home_conf empty_hass)))).
  - reflexivity.
  - constructor.
  - intros zones h. apply add_by_handle_bus.
  - reflexivity.
Defined.

Lemma config_list_all_or_nothing_witness :
  Schema.CONFIG_SCHEMA prefixed_icon wrap
    (Some (Schema.VList [Schema.IDict office_fields]))
  = Ok [created_office]
  ∧ Schema.CONFIG_SCHEMA prefixed_icon wrap None = Ok [].
Proof.
  destruct (config_list_all_or_nothing prefixed_icon wrap
              [Schema.IDict office_fields] [created_office])
    as [Hlist Hnone].
  { intros l'. reflexivity. }
  split; [|exact Hnone]. apply Hlist.
  constructor; [|constructor]. exists office_fields. split; reflexivity.
Defined.

Example empty_mapping :
  Schema.CONFIG_SCHEMA prefixed_icon wrap (Some (Schema.VDict Stored.no_fields))
  = Ok []
  ∧ ∃ e, Schema.CONFIG_SCHEMA prefixed_icon wrap
           (Some (Schema.VList [Schema.IDict office_fields;
                                Schema.IDict north_of_the_pole]))
         = Raise e.
Proof. split; [reflexivity|]. eexists. reflexivity. Qed.

End MoreExamples.
